(** * Shallow embedding of scripts/generate_issuance_pack.py (AFGC Issuance Pack Generator v1.2)

    The script is modelled as a state and exception monad over
    - the working tree (paths as lists of components, contents as byte strings),
    - the git repository (the last local commit of packs/ and the pushed remote),
    - the Airtable table (a list of records with their field dictionaries),
    - the clock (the number of [datetime.now()] calls made so far),
    - a trace of the calls made to the archive codec and to [table.update].
    The external collaborators (reportlab, pikepdf, zipfile, hashlib, the clock,
    git and the Airtable client) are the fields of an explicit environment. *)

From Stdlib Require Import Ascii.
From stdpp Require Import base gmap list strings pretty.

(* ------------------------------------------------------------------ *)
(** ** Python values, datetimes and strings *)

(** Airtable field values: text, checkbox and Python's [None]. *)
Inductive value :=
| VStr (s : string)
| VBool (b : bool)
| VNone.

#[global] Instance value_eq_dec : EqDecision value.
Proof. solve_decision. Defined.

(** [str(v)], as an f-string formats it. *)
Definition py_str (v : value) : string :=
  match v with
  | VStr s => s
  | VBool true => "True"
  | VBool false => "False"
  | VNone => "None"
  end.

(** The truthiness of a field, as Airtable's formula [{F}=TRUE()] sees it
    (a missing checkbox is false). *)
Definition truthy (v : option value) : bool :=
  match v with
  | Some (VBool true) => true
  | _ => false
  end.

Record datetime := mk_datetime {
  year : nat; month : nat; day : nat;
  hour : nat; minute : nat; second : nat; microsecond : nat
}.

Fixpoint zeros (k : nat) : string :=
  match k with
  | O => ""
  | S k' => String "0"%char (zeros k')
  end.

(** Zero-padded decimal rendering, as [%02d] and friends. *)
Definition pad (width n : nat) : string :=
  let s := pretty n in zeros (width - String.length s) +:+ s.

(** [dt.strftime('%Y-%m-%d %H:%M:%S UTC')] *)
Definition strftime_utc (d : datetime) : string :=
  pad 4 (year d) +:+ "-" +:+ pad 2 (month d) +:+ "-" +:+ pad 2 (day d) +:+ " " +:+
  pad 2 (hour d) +:+ ":" +:+ pad 2 (minute d) +:+ ":" +:+ pad 2 (second d) +:+ " UTC".

(** [dt.isoformat()] for an aware UTC datetime (microseconds omitted when 0). *)
Definition isoformat (d : datetime) : string :=
  pad 4 (year d) +:+ "-" +:+ pad 2 (month d) +:+ "-" +:+ pad 2 (day d) +:+ "T" +:+
  pad 2 (hour d) +:+ ":" +:+ pad 2 (minute d) +:+ ":" +:+ pad 2 (second d) +:+
  (if decide (microsecond d = 0) then "" else "." +:+ pad 6 (microsecond d)) +:+
  "+00:00".

(** The UTF-8 encoding of the em dash written by [Path.write_text]. *)
Definition em_dash : string := String "226"%char (String "128"%char (String "148"%char EmptyString)).

Fixpoint join_lines (ls : list string) : string :=
  match ls with
  | [] => ""
  | [l] => l
  | l :: ls' => l +:+ String "010"%char EmptyString +:+ join_lines ls'
  end.

(* ------------------------------------------------------------------ *)
(** ** Paths, records, the external environment and the state *)

(** A [pathlib.Path] as its list of components; [p / name] appends one
    component (identifiers are taken as single components). *)
Abbreviation path := (list string).

Definition path_name (p : path) : string := default "" (last p).

Definition GITHUB_PAGES_BASE : string := "https://ttony106-source.github.io/afgc-registry".
Definition PACKS_DIR : path := ["packs"].

(** An Airtable record as returned by [table.all]: its id and its fields. *)
Record airtable_record := mk_record {
  rec_id : string;
  rec_fields : gmap string value
}.

(** [fields.get(k, default)] *)
Definition field_get (f : gmap string value) (k : string) (d : value) : value :=
  default d (f !! k).

(** One paragraph, spacer or table of the reportlab story. *)
Inductive flowable :=
| Para (text : string)
| Spacer
| TableRows (rows : list (string * string)).

(** The calls the script makes to its collaborators, in order. *)
Inductive event :=
| EvZip (zip_name : string) (arcnames : list string)
| EvUpdate (record_id : string) (payload : list (string * value)).

Record env := mk_env {
  configured : bool;                       (* the three AIRTABLE_* variables are set *)
  dry_run : bool;                          (* DRY_RUN *)
  (* The two PDF engines also take the moment of the run at which they are
     called: reportlab stamps /CreationDate, /ModDate and a document /ID, and
     pikepdf stamps xmp:MetadataDate and writes a fresh /ID, from the wall
     clock and the random source rather than from their arguments. *)
  render : list flowable -> nat -> option string; (* SimpleDocTemplate.build *)
  pdfa_save : string -> list (string * string) -> nat -> option string;
                                           (* pikepdf: open, set XMP metadata, save *)
  zip_pack : list (string * string) -> option string; (* zipfile, ZIP_DEFLATED *)
  sha256 : string -> string;               (* hashlib.sha256(..).hexdigest() *)
  clock : nat -> datetime;                 (* the n-th datetime.now(timezone.utc) *)
  stage_ok : bool;                         (* git config (twice) and git add packs/ succeed *)
  commit_ok : bool;                        (* git commit succeeds *)
  push_ok : bool;                          (* git push succeeds *)
  update_ok : string -> bool               (* table.update(record_id, ..) succeeds *)
}.

Record state := mk_state {
  fs : gmap path string;      (* working tree *)
  committed : gmap path string; (* packs/ as of the last local commit *)
  remote : gmap path string;  (* packs/ as pushed, i.e. served by GitHub Pages *)
  table : list airtable_record;
  ticks : nat;
  events : list event
}.

(* ------------------------------------------------------------------ *)
(** ** The state and exception monad

    A raised Python exception carries its [str(e)]; the effects made before
    it are kept, as in Python. *)

Inductive exc (A : Type) :=
| Ok (a : A)
| Exn (msg : string).
Arguments Ok {A} a.
Arguments Exn {A} msg.

Definition M (A : Type) : Type := state -> exc A * state.

Definition ret {A} (a : A) : M A := fun s => (Ok a, s).

Definition bind {A B} (m : M A) (k : A -> M B) : M B := fun s =>
  match m s with
  | (Ok a, s') => k a s'
  | (Exn e, s') => (Exn e, s')
  end.

Notation "'do' x <- c1 ; c2" := (bind c1 (fun x => c2))
  (at level 200, x name, c1 at level 100, c2 at level 200).
Notation "'do' ' pat <- c1 ; c2" := (bind c1 (fun x => match x with pat => c2 end))
  (at level 200, pat pattern, c1 at level 100, c2 at level 200).

Definition raise {A} (msg : string) : M A := fun s => (Exn msg, s).

(** [try: m except Exception as e: h(str(e))] *)
Definition try_except {A} (m : M A) (h : string -> M A) : M A := fun s =>
  match m s with
  | (Ok a, s') => (Ok a, s')
  | (Exn e, s') => h e s'
  end.

Definition modify (f : state -> state) : M unit := fun s => (Ok tt, f s).
Definition gets {A} (f : state -> A) : M A := fun s => (Ok (f s), s).

Definition set_fs (m : gmap path string) (s : state) : state :=
  mk_state m (committed s) (remote s) (table s) (ticks s) (events s).
Definition set_git (h r : gmap path string) (s : state) : state :=
  mk_state (fs s) h r (table s) (ticks s) (events s).
Definition set_table (t : list airtable_record) (s : state) : state :=
  mk_state (fs s) (committed s) (remote s) t (ticks s) (events s).
Definition tick (s : state) : state :=
  mk_state (fs s) (committed s) (remote s) (table s) (S (ticks s)) (events s).
Definition log (e : event) (s : state) : state :=
  mk_state (fs s) (committed s) (remote s) (table s) (ticks s) (events s ++ [e]).

Section Script.
Variable E : env.

(** [datetime.now(timezone.utc)] *)
Definition now : M datetime := fun s => (Ok (clock E (ticks s)), tick s).

(** [p.read_bytes()]; [FileNotFoundError] when absent. *)
Definition read_bytes (p : path) : M string := fun s =>
  match fs s !! p with
  | Some b => (Ok b, s)
  | None => (Exn "FileNotFoundError", s)
  end.

(** [p.write_text(..)] / [p.write_bytes(..)]: creates or truncates. *)
Definition write_bytes (p : path) (b : string) : M unit :=
  modify (fun s => set_fs (<[p := b]> (fs s)) s).

(** [p.exists()] *)
Definition exists_ (p : path) : M bool := gets (fun s => bool_decide (is_Some (fs s !! p))).

(** [p.stat().st_size] *)
Definition stat_size (p : path) : M nat := do b <- read_bytes p; ret (String.length b).

(** [src.replace(dst)] *)
Definition replace (src dst : path) : M unit :=
  do b <- read_bytes src;
  modify (fun s => set_fs (<[dst := b]> (delete src (fs s))) s).

Definition ensure {A} (o : option A) (msg : string) : M A :=
  match o with
  | Some a => ret a
  | None => raise msg
  end.

(** A [str] used as a path component; [Path / True] raises [TypeError]. *)
Definition path_seg (v : value) : M string :=
  match v with
  | VStr s => ret s
  | _ => raise "TypeError"
  end.

(* ------------------------------------------------------------------ *)
(** ** The script's functions *)

(** [get_pending_certifications]: the formula
    [AND({Status}='Active', {Issue_Now}=TRUE(), {Issuance_Pack_Generated}!=TRUE())]. *)
Definition is_pending (r : airtable_record) : bool :=
  bool_decide (rec_fields r !! "Status" = Some (VStr "Active")) &&
  truthy (rec_fields r !! "Issue_Now") &&
  negb (truthy (rec_fields r !! "Issuance_Pack_Generated")).

Definition get_pending_certifications : M (list airtable_record) :=
  gets (fun s => List.filter is_pending (table s)).

Definition contents_manifest_lines (cert_id : string) (pdf_path : path)
    (pdf_sha256 : string) (pdf_size : nat) (timestamp : string) : list string :=
  [ "AFGC ISSUANCE PACK " +:+ em_dash +:+ " CONTENTS MANIFEST";
    "Certification_ID: " +:+ cert_id;
    "Generated_UTC: " +:+ timestamp;
    "Pack_Version: 1.2";
    "";
    "FILE";
    "1) " +:+ path_name pdf_path;
    "   Standard: PDF/A-2b";
    "   SHA-256: " +:+ pdf_sha256;
    "   Size_Bytes: " +:+ pretty pdf_size;
    "";
    "VERIFICATION";
    "- Compute SHA-256 of the PDF and compare to value above." ].

Definition generate_contents_manifest (cert_dir : path) (cert_id : string) (pdf_path : path)
    (pdf_sha256 : string) (pdf_size : nat) (timestamp : string) : M path :=
  let manifest_path := cert_dir ++ ["CONTENTS_MANIFEST.txt"] in
  do _ <- write_bytes manifest_path
    (join_lines (contents_manifest_lines cert_id pdf_path pdf_sha256 pdf_size timestamp));
  ret manifest_path.

Definition master_manifest_lines (cert_id pdf_sha256 : string) (pdf_size : nat)
    (zip_sha256 : string) (zip_size : nat) (timestamp : string) : list string :=
  let base_url := GITHUB_PAGES_BASE +:+ "/packs/" +:+ cert_id in
  [ "AFGC ISSUANCE PACK " +:+ em_dash +:+ " MASTER MANIFEST";
    "Certification_ID: " +:+ cert_id;
    "Generated_UTC: " +:+ timestamp;
    "Pack_Version: 1.2";
    "Base_URL: " +:+ base_url +:+ "/";
    "";
    "FILES";
    "1) " +:+ cert_id +:+ "_issuance_pack.pdf";
    "   Standard: PDF/A-2b";
    "   SHA-256: " +:+ pdf_sha256;
    "   Size_Bytes: " +:+ pretty pdf_size;
    "   URL: " +:+ base_url +:+ "/" +:+ cert_id +:+ "_issuance_pack.pdf";
    "";
    "2) " +:+ cert_id +:+ "_issuance_pack.zip";
    "   SHA-256: " +:+ zip_sha256;
    "   Size_Bytes: " +:+ pretty zip_size;
    "   URL: " +:+ base_url +:+ "/" +:+ cert_id +:+ "_issuance_pack.zip";
    "";
    "VERIFICATION";
    "- Verify PDF integrity: compute SHA-256 of the PDF and compare to item (1).";
    "- Verify ZIP integrity: compute SHA-256 of the ZIP and compare to item (2).";
    "- ZIP includes CONTENTS_MANIFEST.txt for internal file verification." ].

Definition generate_master_manifest (cert_dir : path) (cert_id pdf_sha256 : string) (pdf_size : nat)
    (zip_sha256 : string) (zip_size : nat) (timestamp : string) : M path :=
  let manifest_path := cert_dir ++ ["MANIFEST.txt"] in
  do _ <- write_bytes manifest_path
    (join_lines (master_manifest_lines cert_id pdf_sha256 pdf_size zip_sha256 zip_size timestamp));
  ret manifest_path.

(** The loop of [generate_zip]: every listed file that exists is added under
    its [name]; a missing one is skipped. *)
Fixpoint zip_entries (files_to_zip : list path) {struct files_to_zip} : M (list (string * string)) :=
  match files_to_zip with
  | [] => ret []
  | file_path :: rest =>
      do e <- exists_ file_path;
      if e then
        do b <- read_bytes file_path;
        do r <- zip_entries rest;
        ret ((path_name file_path, b) :: r)
      else zip_entries rest
  end.

Definition generate_zip (cert_dir : path) (cert_id : string) (files_to_zip : list path)
    : M (path * string) :=
  let zip_filename := cert_id +:+ "_issuance_pack.zip" in
  let zip_path := cert_dir ++ [zip_filename] in
  do _ <- write_bytes zip_path "";           (* ZipFile(zip_path, 'w') truncates *)
  do entries <- zip_entries files_to_zip;
  do _ <- modify (log (EvZip zip_filename (map fst entries)));
  do z <- ensure (zip_pack E entries) "BadZipFile";
  do _ <- write_bytes zip_path z;
  do zb <- read_bytes zip_path;
  ret (zip_path, sha256 E zb).

(** [str.rfind('.')] split: the parts before and after the last dot. *)
Fixpoint rsplit_dot (s : string) : option (string * string) :=
  match s with
  | EmptyString => None
  | String c rest =>
      match rsplit_dot rest with
      | Some (a, b) => Some (String c a, b)
      | None => if Ascii.eqb c "."%char then Some (EmptyString, rest) else None
      end
  end.

(** [PurePath.stem] *)
Definition stem (name : string) : string :=
  match rsplit_dot name with
  | Some (a, b) => if decide (a = "") then name else if decide (b = "") then name else a
  | None => name
  end.

(** [PurePath.with_suffix] *)
Definition with_suffix (p : path) (suffix : string) : path :=
  removelast p ++ [stem (path_name p) +:+ suffix].

Definition cert_id_of (cert : airtable_record) : value :=
  field_get (rec_fields cert) "Certification_ID" (VStr "Unknown").

(** A cell of the reportlab [Table]: [str(v)], and an empty cell for [None]. *)
Definition cell (v : value) : string :=
  match v with
  | VNone => ""
  | _ => py_str v
  end.

Definition pdf_story (fields : gmap string value) (timestamp : string) : list flowable :=
  let cert_id := field_get fields "Certification_ID" (VStr "Unknown") in
  let entity_name := field_get fields "Entity_Name" (VStr "Unknown Entity") in
  let jurisdiction := field_get fields "Jurisdiction" (VStr "") in
  let issued_date := field_get fields "Issued_Date" (VStr "") in
  let expiration_date := field_get fields "Expiration_Date" (VStr "") in
  let scope := field_get fields "High_Level_Scope" (VStr "") in
  let entity_type := field_get fields "Entity_Type" (VStr "") in
  [ Para "AI Fiduciary Governance Certification";
    Para "Official Issuance Pack";
    Spacer;
    TableRows [ ("Certification ID:", cell cert_id);
                ("Entity Name:", cell entity_name);
                ("Entity Type:", cell entity_type);
                ("Jurisdiction:", cell jurisdiction);
                ("Issue Date:", cell issued_date);
                ("Expiration Date:", cell expiration_date);
                ("Scope:", cell scope) ];
    Spacer;
    Para ("Generated: " +:+ timestamp);
    Spacer;
    Para "This document certifies compliance with AFGC governance standards.";
    Para ("Registry URL: " +:+ GITHUB_PAGES_BASE +:+ "/registry/") ].

Definition pdf_metadata (fields : gmap string value) (create_date : string)
    : list (string * string) :=
  let cert_id := field_get fields "Certification_ID" (VStr "Unknown") in
  let entity_name := field_get fields "Entity_Name" (VStr "Unknown Entity") in
  [ ("dc:title", "AFGC Certification - " +:+ py_str cert_id);
    ("dc:creator", "AFGC Registry System");
    ("dc:description", "Official issuance pack for " +:+ py_str entity_name);
    ("pdf:Producer", "AFGC Issuance Pack Generator");
    ("xmp:CreateDate", create_date) ].

Definition generate_pdf (cert_data : airtable_record) (output_path : path) : M string :=
  let fields := rec_fields cert_data in
  do d <- now;
  let timestamp := strftime_utc d in
  do n <- gets ticks;
  do pdf <- ensure (render E (pdf_story fields timestamp) n) "RenderError";   (* doc.build *)
  do _ <- write_bytes output_path pdf;
  let pdfa_path := with_suffix output_path ".pdfa.pdf" in
  do src <- read_bytes output_path;                                         (* pikepdf.open *)
  do d' <- now;
  do n' <- gets ticks;
  do out <- ensure (pdfa_save E src (pdf_metadata fields (isoformat d')) n') "PdfError";
  do _ <- write_bytes pdfa_path out;                                    (* pdf.save *)
  do _ <- replace pdfa_path output_path;
  do b <- read_bytes output_path;
  ret (sha256 E b).

(** The entries of [generated] and [failed] in [main]. *)
Record gen_item := mk_gen {
  g_record_id : string; g_cert_id : value;
  g_pdf_sha256 : string; g_zip_sha256 : string; g_path : path
}.

Record fail_item := mk_fail { f_record_id : string; f_cert_id : value; f_error : string }.

(** The body of the [try] in [main]'s loop. *)
Definition process_entry (cert : airtable_record) : M gen_item :=
  let record_id := rec_id cert in
  let cert_id := cert_id_of cert in
  do cid <- path_seg cert_id;
  let cert_dir := PACKS_DIR ++ [cid] in
  let output_path := cert_dir ++ [cid +:+ "_issuance_pack.pdf"] in
  do d <- now;
  let timestamp := strftime_utc d in
  do pdf_sha256 <- generate_pdf cert output_path;
  do pdf_size <- stat_size output_path;
  do contents_manifest_path <-
     generate_contents_manifest cert_dir cid output_path pdf_sha256 pdf_size timestamp;
  let files_to_zip := [output_path; contents_manifest_path] in
  do '(zip_path, zip_sha256) <- generate_zip cert_dir cid files_to_zip;
  do zip_size <- stat_size zip_path;
  do _ <- generate_master_manifest cert_dir cid pdf_sha256 pdf_size zip_sha256 zip_size timestamp;
  ret (mk_gen record_id cert_id pdf_sha256 zip_sha256 output_path).

(** One iteration: [try: ... generated.append(..) except Exception as e: failed.append(..)]. *)
Definition try_entry (cert : airtable_record) : M (gen_item + fail_item) :=
  try_except (do g <- process_entry cert; ret (inl g))
             (fun e => ret (inr (mk_fail (rec_id cert) (cert_id_of cert) e))).

(** [for cert in pending: ...], returning [(generated, failed)] in order. *)
Fixpoint process_all (pending : list airtable_record) : M (list gen_item * list fail_item) :=
  match pending with
  | [] => ret ([], [])
  | cert :: rest =>
      do r <- try_entry cert;
      do '(generated, failed) <- process_all rest;
      ret (match r with
           | inl g => (g :: generated, failed)
           | inr f => (generated, f :: failed)
           end)
  end.

(** The packs/ subtree of the working tree ([git add packs/]). *)
Definition packs_tree (m : gmap path string) : gmap path string :=
  filter (fun kv : path * string => head kv.1 = Some "packs") m.

Definition git_commit_packs : M bool :=
  if dry_run E then ret true else
  if negb (stage_ok E) then ret false else               (* CalledProcessError *)
  do staged <- gets (fun s => packs_tree (fs s));
  do last_commit <- gets committed;
  if decide (staged = last_commit) then ret true        (* git diff --cached --quiet *)
  else
    do _ <- now;
    if commit_ok E then
      do _ <- modify (fun s => set_git staged (remote s) s);
      if push_ok E then
        do _ <- modify (fun s => set_git (committed s) staged s);
        ret true
      else ret false
    else ret false.

(** pyairtable's [table.update]: merges the given fields into the record. *)
Definition apply_payload (payload : list (string * value)) (f : gmap string value)
    : gmap string value :=
  foldl (fun acc kv => <[kv.1 := kv.2]> acc) f payload.

Definition update_fields (record_id : string) (payload : list (string * value))
    (t : list airtable_record) : list airtable_record :=
  map (fun r => if decide (rec_id r = record_id)
                then mk_record (rec_id r) (apply_payload payload (rec_fields r)) else r) t.

Definition table_update (record_id : string) (payload : list (string * value)) : M unit :=
  do _ <- modify (log (EvUpdate record_id payload));
  do t <- gets table;
  if update_ok E record_id && existsb (fun r => bool_decide (rec_id r = record_id)) t
  then modify (set_table (update_fields record_id payload t))
  else raise "HTTPError".

(** [error_msg or 'Unknown error'] *)
Definition py_or (v : value) (d : string) : value :=
  match v with
  | VStr "" | VNone | VBool false => VStr d
  | _ => v
  end.

Definition success_payload (cert_id pdf_sha256 zip_sha256 : value) (at_ : string)
    : list (string * value) :=
  let c := py_str cert_id in
  [ ("Issuance_Pack_Generated", VBool true);
    ("Issuance_Pack_URL", VStr (GITHUB_PAGES_BASE +:+ "/packs/" +:+ c +:+ "/" +:+ c +:+ "_issuance_pack.pdf"));
    ("Issuance_Pack_SHA256", pdf_sha256);
    ("Issuance_Pack_ZIP_URL", VStr (GITHUB_PAGES_BASE +:+ "/packs/" +:+ c +:+ "/" +:+ c +:+ "_issuance_pack.zip"));
    ("Issuance_Pack_ZIP_SHA256", zip_sha256);
    ("Issuance_Dispatch_Status", VStr "Sent");
    ("Issuance_Dispatch_At", VStr at_);
    ("Issue_Now", VBool false) ].

Definition failure_payload (error_msg : value) (at_ : string) : list (string * value) :=
  [ ("Issuance_Dispatch_Status", VStr "Failed");
    ("Issuance_Error_Log", py_or error_msg "Unknown error");
    ("Issuance_Dispatch_At", VStr at_) ].

Definition update_airtable_record (record_id : string) (cert_id pdf_sha256 zip_sha256 : value)
    (success : bool) (error_msg : value) : M unit :=
  if dry_run E then ret tt else
  do d <- now;
  if success then table_update record_id (success_payload cert_id pdf_sha256 zip_sha256 (isoformat d))
  else table_update record_id (failure_payload error_msg (isoformat d)).

Fixpoint update_generated (generated : list gen_item) (commit_success : bool) : M unit :=
  match generated with
  | [] => ret tt
  | item :: rest =>
      do _ <- update_airtable_record (g_record_id item) (g_cert_id item)
                (VStr (g_pdf_sha256 item)) (VStr (g_zip_sha256 item)) commit_success
                (if commit_success then VNone else VStr "Git commit failed");
      update_generated rest commit_success
  end.

Fixpoint update_failed (failed : list fail_item) : M unit :=
  match failed with
  | [] => ret tt
  | item :: rest =>
      do _ <- update_airtable_record (f_record_id item) (f_cert_id item) VNone VNone false
                (VStr (f_error item));
      update_failed rest
  end.

(** The part of [main] after the loop. *)
Definition dispatch (generated : list gen_item) (failed : list fail_item) : M unit :=
  do _ <- (if decide (generated = []) then ret tt else
             do commit_success <- git_commit_packs;
             update_generated generated commit_success);
  update_failed failed.

Definition main : M unit :=
  if negb (configured E) then raise "SystemExit" else
  do pending <- get_pending_certifications;
  if decide (pending = []) then ret tt else
  do '(generated, failed) <- process_all pending;
  dispatch generated failed.

End Script.

(* ------------------------------------------------------------------ *)
(** ** File names of a pack *)

Module Names.

(** [String.append] does not unfold under [simpl] once stdpp is loaded;
    these are its two equations. *)
Lemma app_nil (b : string) : "" +:+ b = b.
Proof. reflexivity. Qed.
Lemma app_cons x (a b : string) : String x a +:+ b = String x (a +:+ b).
Proof. reflexivity. Qed.

Lemma length_app (a b : string) : String.length (a +:+ b) = String.length a + String.length b.
Proof. induction a as [|x a IH]; [done|]. rewrite app_cons. cbn. by rewrite IH. Qed.

Lemma app_assoc_str (a b c : string) : (a +:+ b) +:+ c = a +:+ (b +:+ c).
Proof. induction a as [|x a IH]; [done|]. rewrite !app_cons. by rewrite IH. Qed.

Lemma app_cancel_l (a b c : string) : a +:+ b = a +:+ c -> b = c.
Proof. induction a as [|x a IH]; [done|]. rewrite !app_cons. intros [= H]. auto. Qed.

(** Two strings with suffixes of the same length are equal only if the
    suffixes are. *)
Lemma app_cancel_suffix (a b c d : string) :
  String.length b = String.length d -> a +:+ b = c +:+ d -> b = d.
Proof.
  intros Hl H.
  assert (Ha : String.length a = String.length c).
  { apply (f_equal String.length) in H. rewrite !length_app in H. lia. }
  revert c Ha H. induction a as [|x a IH]; intros [|y c] Ha H; cbn in Ha; try lia.
  - exact H.
  - rewrite !app_cons in H. injection H as _ H. apply (IH c); [lia | exact H].
Qed.

Lemma rsplit_dot_app (a b x y : string) :
  rsplit_dot b = Some (x, y) -> rsplit_dot (a +:+ b) = Some (a +:+ x, y).
Proof. intros Hb. induction a as [|c a IH]; [done|]. rewrite !app_cons. cbn. by rewrite IH. Qed.

Lemma stem_pdf (cid : string) :
  stem (cid +:+ "_issuance_pack.pdf") = cid +:+ "_issuance_pack".
Proof.
  unfold stem. rewrite (rsplit_dot_app cid "_issuance_pack.pdf" "_issuance_pack" "pdf")
    by reflexivity.
  destruct (decide (cid +:+ "_issuance_pack" = "")) as [H|_].
  - apply (f_equal String.length) in H. rewrite length_app in H. simpl in H. lia.
  - done.
Qed.

Lemma pdf_ne_contents cid : cid +:+ "_issuance_pack.pdf" <> "CONTENTS_MANIFEST.txt".
Proof.
  intros H. change "CONTENTS_MANIFEST.txt" with ("CON" +:+ "TENTS_MANIFEST.txt") in H.
  apply app_cancel_suffix in H; [discriminate | reflexivity].
Qed.

Lemma zip_ne_contents cid : cid +:+ "_issuance_pack.zip" <> "CONTENTS_MANIFEST.txt".
Proof.
  intros H. change "CONTENTS_MANIFEST.txt" with ("CON" +:+ "TENTS_MANIFEST.txt") in H.
  apply app_cancel_suffix in H; [discriminate | reflexivity].
Qed.

Lemma pdf_ne_zip cid : cid +:+ "_issuance_pack.pdf" <> cid +:+ "_issuance_pack.zip".
Proof. intros H. apply app_cancel_l in H. discriminate. Qed.

Ltac by_length :=
  let H := fresh in intros H; apply (f_equal String.length) in H;
  rewrite ?length_app in H; simpl in H; lia.

Lemma pdf_ne_master cid : cid +:+ "_issuance_pack.pdf" <> "MANIFEST.txt".
Proof. by_length. Qed.
Lemma zip_ne_master cid : cid +:+ "_issuance_pack.zip" <> "MANIFEST.txt".
Proof. by_length. Qed.
Lemma pdfa_ne_pdf cid : (cid +:+ "_issuance_pack") +:+ ".pdfa.pdf" <> cid +:+ "_issuance_pack.pdf".
Proof. by_length. Qed.
Lemma pdfa_ne_zip cid : (cid +:+ "_issuance_pack") +:+ ".pdfa.pdf" <> cid +:+ "_issuance_pack.zip".
Proof. by_length. Qed.
Lemma pdfa_ne_contents cid : (cid +:+ "_issuance_pack") +:+ ".pdfa.pdf" <> "CONTENTS_MANIFEST.txt".
Proof. by_length. Qed.
Lemma pdfa_ne_master cid : (cid +:+ "_issuance_pack") +:+ ".pdfa.pdf" <> "MANIFEST.txt".
Proof. by_length. Qed.

End Names.

(* ------------------------------------------------------------------ *)
(** ** Closed forms of the per-entry steps *)

Module Steps.
Import Names.

Definition pdf_path (cid : string) : path := ["packs"; cid; cid +:+ "_issuance_pack.pdf"].
Definition pdfa_path (cid : string) : path := ["packs"; cid; (cid +:+ "_issuance_pack") +:+ ".pdfa.pdf"].
Definition contents_path (cid : string) : path := ["packs"; cid; "CONTENTS_MANIFEST.txt"].
Definition zip_path (cid : string) : path := ["packs"; cid; cid +:+ "_issuance_pack.zip"].
Definition master_path (cid : string) : path := ["packs"; cid; "MANIFEST.txt"].

Lemma with_suffix_pdf cid : with_suffix (pdf_path cid) ".pdfa.pdf" = pdfa_path cid.
Proof. unfold with_suffix, pdf_path, pdfa_path, path_name. cbn. by rewrite stem_pdf. Qed.

Lemma pdfa_ne_pdf_path cid : pdfa_path cid <> pdf_path cid.
Proof. intros [= H]. by apply (pdfa_ne_pdf cid). Qed.

Ltac unfold_monad :=
  cbv [bind ret raise try_except modify gets now read_bytes write_bytes exists_ stat_size
       replace ensure path_seg set_fs set_git set_table tick log] in *; cbn in *.

Lemma generate_pdf_eq E cert cid s :
  generate_pdf E cert (pdf_path cid) s =
  match render E (pdf_story (rec_fields cert) (strftime_utc (clock E (ticks s)))) (S (ticks s)) with
  | None => (Exn "RenderError", tick s)
  | Some pdf =>
      let fs1 := <[pdf_path cid := pdf]> (fs s) in
      match pdfa_save E pdf (pdf_metadata (rec_fields cert) (isoformat (clock E (S (ticks s))))) (S (S (ticks s))) with
      | None => (Exn "PdfError", mk_state fs1 (committed s) (remote s) (table s) (S (S (ticks s))) (events s))
      | Some out =>
          (Ok (sha256 E out),
           mk_state (<[pdf_path cid := out]> (delete (pdfa_path cid) fs1))
             (committed s) (remote s) (table s) (S (S (ticks s))) (events s))
      end
  end.
Proof.
  unfold generate_pdf. rewrite with_suffix_pdf. unfold_monad.
  destruct (render E _ _) as [pdf|]; cbn; [|done].
  rewrite lookup_insert_eq; cbn.
  destruct (pdfa_save E _ _ _) as [out|]; cbn; [|done].
  rewrite lookup_insert_eq; cbn.
  rewrite lookup_insert_eq; cbn.
  rewrite delete_insert_eq. done.
Qed.

(** The entries [zipfile] receives: the listed files that exist, in order. *)
Definition existing_entries (m : gmap path string) (files : list path) : list (string * string) :=
  omap (fun p => (fun b => (path_name p, b)) <$> m !! p) files.

Lemma zip_entries_eq files s : zip_entries files s = (Ok (existing_entries (fs s) files), s).
Proof.
  induction files as [|p files IH]; [done|].
  cbn [zip_entries existing_entries omap]. unfold_monad.
  destruct (fs s !! p) as [b|] eqn:Hp; cbn.
  - rewrite Hp, IH. done.
  - exact IH.
Qed.

Lemma generate_zip_eq E cid files s :
  generate_zip E ["packs"; cid] cid files s =
  let fs0 := <[zip_path cid := ""]> (fs s) in
  let es := existing_entries fs0 files in
  let ev := events s ++ [EvZip (cid +:+ "_issuance_pack.zip") (map fst es)] in
  match zip_pack E es with
  | None => (Exn "BadZipFile", mk_state fs0 (committed s) (remote s) (table s) (ticks s) ev)
  | Some z =>
      (Ok (zip_path cid, sha256 E z),
       mk_state (<[zip_path cid := z]> fs0) (committed s) (remote s) (table s) (ticks s) ev)
  end.
Proof.
  unfold generate_zip. unfold_monad.
  rewrite (zip_entries_eq files (mk_state _ _ _ _ _ _)). cbn.
  destruct (zip_pack E _) as [z|]; cbn; [|done].
  unfold zip_path. rewrite lookup_insert_eq. cbn. by rewrite insert_insert_eq.
Qed.

Definition contents_text (cid pdf_sha256 : string) (pdf_size : nat) (timestamp : string) : string :=
  join_lines (contents_manifest_lines cid (pdf_path cid) pdf_sha256 pdf_size timestamp).

Definition master_text (cid pdf_sha256 : string) (pdf_size : nat) (zip_sha256 : string)
    (zip_size : nat) (timestamp : string) : string :=
  join_lines (master_manifest_lines cid pdf_sha256 pdf_size zip_sha256 zip_size timestamp).

(** [process_entry] with every step evaluated: the outcome depends on the
    record, the clock and the collaborators, and the working tree only
    receives writes. *)
Definition process_entry_closed (E : env) (cert : airtable_record) (s : state)
    : exc gen_item * state :=
  let f := rec_fields cert in
  let t := ticks s in
  match cert_id_of cert with
  | VStr cid =>
      let timestamp := strftime_utc (clock E t) in
      match render E (pdf_story f (strftime_utc (clock E (S t)))) (S (S t)) with
      | None => (Exn "RenderError", mk_state (fs s) (committed s) (remote s) (table s) (S (S t)) (events s))
      | Some pdf =>
          let fs1 := <[pdf_path cid := pdf]> (fs s) in
          match pdfa_save E pdf (pdf_metadata f (isoformat (clock E (S (S t))))) (S (S (S t))) with
          | None => (Exn "PdfError", mk_state fs1 (committed s) (remote s) (table s) (S (S (S t))) (events s))
          | Some out =>
              let cm := contents_text cid (sha256 E out) (String.length out) timestamp in
              let fs2 := <[zip_path cid := ""]>
                           (<[contents_path cid := cm]>
                              (<[pdf_path cid := out]> (delete (pdfa_path cid) fs1))) in
              let es := [(cid +:+ "_issuance_pack.pdf", out); ("CONTENTS_MANIFEST.txt", cm)] in
              let ev := events s ++ [EvZip (cid +:+ "_issuance_pack.zip") (map fst es)] in
              match zip_pack E es with
              | None => (Exn "BadZipFile", mk_state fs2 (committed s) (remote s) (table s) (S (S (S t))) ev)
              | Some z =>
                  (Ok (mk_gen (rec_id cert) (VStr cid) (sha256 E out) (sha256 E z) (pdf_path cid)),
                   mk_state (<[master_path cid :=
                                 master_text cid (sha256 E out) (String.length out) (sha256 E z)
                                   (String.length z) timestamp]>
                               (<[zip_path cid := z]> fs2))
                     (committed s) (remote s) (table s) (S (S (S t))) ev)
              end
          end
      end
  | _ => (Exn "TypeError", s)
  end.

Lemma pack_paths_ne cid :
  (pdf_path cid <> contents_path cid) /\ (pdf_path cid <> zip_path cid) /\
  (contents_path cid <> zip_path cid) /\ (zip_path cid <> contents_path cid) /\
  (zip_path cid <> pdf_path cid) /\ (contents_path cid <> pdf_path cid).
Proof.
  unfold pdf_path, contents_path, zip_path.
  split_and!; intros [= H];
    first [ exact (pdf_ne_contents cid H) | exact (pdf_ne_contents cid (eq_sym H))
          | exact (zip_ne_contents cid H) | exact (zip_ne_contents cid (eq_sym H))
          | exact (pdf_ne_zip cid H) | exact (pdf_ne_zip cid (eq_sym H)) ].
Qed.

#[local] Opaque generate_pdf generate_zip.

Lemma process_entry_eq E cert s : process_entry E cert s = process_entry_closed E cert s.
Proof.
  unfold process_entry, process_entry_closed.
  destruct (cert_id_of cert) as [cid| |] eqn:Hc;
    cbv [bind ret raise modify gets now read_bytes write_bytes stat_size path_seg set_fs tick log];
    cbn -[generate_pdf generate_zip]; try done.
  change ["packs"; cid; cid +:+ "_issuance_pack.pdf"] with (pdf_path cid).
  rewrite generate_pdf_eq. cbn -[generate_zip].
  destruct (render E _ _) as [pdf|]; cbn; [|done].
  destruct (pdfa_save E _ _ _) as [out|]; cbn; [|done].
  destruct (pack_paths_ne cid) as (H1 & H2 & H3 & H4 & H5 & H6).
  rewrite lookup_insert_eq. cbn.
  rewrite generate_zip_eq. unfold existing_entries. cbn.
  change ["packs"; cid; "CONTENTS_MANIFEST.txt"] with (contents_path cid).
  rewrite (lookup_insert_ne _ (zip_path cid) (pdf_path cid)) by done.
  rewrite (lookup_insert_ne _ (contents_path cid) (pdf_path cid)) by done.
  rewrite lookup_insert_eq.
  rewrite (lookup_insert_ne _ (zip_path cid) (contents_path cid)) by done.
  rewrite lookup_insert_eq. cbn.
  destruct (zip_pack E _) as [z|]; cbn; [|done].
  rewrite lookup_insert_eq. cbn. done.
Qed.

#[local] Transparent generate_pdf generate_zip.

Lemma master_paths_ne cid :
  (master_path cid <> pdf_path cid) /\ (master_path cid <> contents_path cid) /\
  (master_path cid <> zip_path cid) /\ (master_path cid <> pdfa_path cid) /\
  (pdfa_path cid <> contents_path cid) /\ (pdfa_path cid <> zip_path cid).
Proof.
  unfold master_path, pdf_path, contents_path, zip_path, pdfa_path.
  split_and!; intros [= H];
    first [ exact (pdf_ne_master cid (eq_sym H)) | exact (zip_ne_master cid (eq_sym H))
          | exact (pdfa_ne_master cid (eq_sym H)) | exact (pdfa_ne_contents cid H)
          | exact (pdfa_ne_zip cid H) ].
Qed.

(** The final working tree of a successful entry, at its four artifacts. *)
Lemma process_entry_ok E cert s g s' :
  process_entry E cert s = (Ok g, s') ->
  exists cid pdf out z,
    let t := ticks s in
    let timestamp := strftime_utc (clock E t) in
    let cm := contents_text cid (sha256 E out) (String.length out) timestamp in
    cert_id_of cert = VStr cid /\
    render E (pdf_story (rec_fields cert) (strftime_utc (clock E (S t)))) (S (S t)) = Some pdf /\
    pdfa_save E pdf (pdf_metadata (rec_fields cert) (isoformat (clock E (S (S t))))) (S (S (S t))) = Some out /\
    zip_pack E [(cid +:+ "_issuance_pack.pdf", out); ("CONTENTS_MANIFEST.txt", cm)] = Some z /\
    g = mk_gen (rec_id cert) (VStr cid) (sha256 E out) (sha256 E z) (pdf_path cid) /\
    fs s' !! pdf_path cid = Some out /\
    fs s' !! contents_path cid = Some cm /\
    fs s' !! zip_path cid = Some z /\
    fs s' !! master_path cid =
      Some (master_text cid (sha256 E out) (String.length out) (sha256 E z) (String.length z) timestamp) /\
    fs s' !! pdfa_path cid = None /\
    (forall p, p !! 1 <> Some cid -> fs s' !! p = fs s !! p) /\
    committed s' = committed s /\ remote s' = remote s /\ table s' = table s /\
    ticks s' = S (S (S t)) /\
    events s' = events s ++ [EvZip (cid +:+ "_issuance_pack.zip")
                               [cid +:+ "_issuance_pack.pdf"; "CONTENTS_MANIFEST.txt"]].
Proof.
  rewrite process_entry_eq. unfold process_entry_closed.
  destruct (cert_id_of cert) as [cid| |]; try discriminate.
  destruct (render E _ _) as [pdf|] eqn:Hr; try discriminate.
  destruct (pdfa_save E _ _ _) as [out|] eqn:Hp; try discriminate.
  destruct (zip_pack E _) as [z|] eqn:Hz; try discriminate.
  intros [= <- <-]. exists cid, pdf, out, z.
  cbn [fs committed remote table ticks events].
  destruct (pack_paths_ne cid) as (H1 & H2 & H3 & H4 & H5 & H6).
  destruct (master_paths_ne cid) as (M1 & M2 & M3 & M4 & M5 & M6).
  pose proof (not_eq_sym M5). pose proof (not_eq_sym M6).
  pose proof (not_eq_sym (pdfa_ne_pdf_path cid)).
  split_and!; try done.
  all: try (rewrite !lookup_insert_ne by done; rewrite ?lookup_insert_eq, ?lookup_delete_eq; done).
  all: try (rewrite lookup_insert_eq; done).
  all: try (rewrite lookup_insert_ne by done; rewrite lookup_insert_eq; done).
  intros p Hp1.
  assert (Hfar : forall n, ["packs"; cid; n] <> p) by (intros n <-; by apply Hp1).
  unfold master_path, zip_path, contents_path, pdf_path, pdfa_path.
  rewrite !lookup_insert_ne by done. rewrite lookup_delete_ne by done.
  by rewrite lookup_insert_ne by done.
Qed.

(** The archive-codec calls an entry makes: one per entry, with the PDF and
    the contents manifest of its own pack. *)
Definition is_pack_zip (ev : event) : Prop :=
  match ev with
  | EvZip zn names =>
      exists cid, zn = cid +:+ "_issuance_pack.zip" /\
                  names = [cid +:+ "_issuance_pack.pdf"; "CONTENTS_MANIFEST.txt"]
  | EvUpdate _ _ => False
  end.

(** Paths outside the namespace [packs/<cid>] of a record. *)
Definition outside_ns (cert : airtable_record) (p : path) : Prop :=
  forall cid, cert_id_of cert = VStr cid -> p !! 1 <> Some cid.

Lemma process_entry_frame E cert s r s' :
  process_entry E cert s = (r, s') ->
  committed s' = committed s /\ remote s' = remote s /\ table s' = table s /\
  (exists l, events s' = events s ++ l /\ Forall is_pack_zip l) /\
  (forall p, outside_ns cert p -> fs s' !! p = fs s !! p).
Proof.
  rewrite process_entry_eq. unfold process_entry_closed, outside_ns.
  destruct (cert_id_of cert) as [cid| |] eqn:Hc;
    [| intros [= <- <-]; split_and!; try done; exists []; by rewrite app_nil_r ..].
  assert (Hfar : forall p, (forall c, VStr cid = VStr c -> p !! 1 <> Some c) ->
                 forall n, ["packs"; cid; n] <> p).
  { intros p Hp n <-. by apply (Hp cid). }
  assert (Hzip : Forall is_pack_zip
                   [EvZip (cid +:+ "_issuance_pack.zip")
                          (map fst [(cid +:+ "_issuance_pack.pdf", ""); ("CONTENTS_MANIFEST.txt", "")])]).
  { constructor; [|constructor]. by exists cid. }
  destruct (render E _ _) as [pdf|];
    [| intros [= <- <-]; split_and!; try done; exists []; by rewrite app_nil_r].
  destruct (pdfa_save E _ _ _) as [out|].
  2: { intros [= <- <-]; split_and!; try done; [exists []; by rewrite app_nil_r|].
       intros p Hp. cbn. rewrite lookup_insert_ne; [done|]. apply Hfar, Hp. }
  destruct (zip_pack E _) as [z|]; intros [= <- <-]; cbn;
    (split_and!; try done; [eexists; split; [reflexivity | exact Hzip] |]);
    intros p Hp; pose proof (Hfar p Hp);
    unfold master_path, zip_path, contents_path, pdf_path, pdfa_path;
    rewrite ?lookup_insert_ne by auto; rewrite lookup_delete_ne by auto;
    by rewrite lookup_insert_ne by auto.
Qed.

Lemma try_entry_eq E cert s :
  try_entry E cert s =
  let '(r, s') := process_entry E cert s in
  (Ok (match r with
       | Ok g => inl g
       | Exn e => inr (mk_fail (rec_id cert) (cert_id_of cert) e)
       end), s').
Proof.
  unfold try_entry, try_except, bind, ret.
  destruct (process_entry E cert s) as [[g|e] s']; done.
Qed.

Lemma process_all_spec E pending s :
  exists generated failed s',
    process_all E pending s = (Ok (generated, failed), s') /\
    map g_record_id generated ++ map f_record_id failed ≡ₚ map rec_id pending /\
    committed s' = committed s /\ remote s' = remote s /\ table s' = table s /\
    (exists l, events s' = events s ++ l /\ Forall is_pack_zip l) /\
    (forall p, Forall (fun c => outside_ns c p) pending -> fs s' !! p = fs s !! p).
Proof.
  revert s. induction pending as [|cert rest IH]; intros s.
  - exists [], [], s. split_and!; try done. exists []. by rewrite app_nil_r.
  - cbn [process_all]. unfold bind at 1. rewrite try_entry_eq.
    destruct (process_entry E cert s) as [r s1] eqn:He.
    destruct (process_entry_frame E cert s r s1 He) as (Hc1 & Hr1 & Ht1 & (l1 & Hl1 & Hz1) & Hf1).
    destruct (IH s1) as (gen & failed & s2 & Hrun & Hperm & Hc2 & Hr2 & Ht2 & (l2 & Hl2 & Hz2) & Hf2).
    unfold bind at 1. rewrite Hrun.
    assert (Hcommon : committed s2 = committed s /\ remote s2 = remote s /\ table s2 = table s /\
                      (exists l, events s2 = events s ++ l /\ Forall is_pack_zip l) /\
                      (forall p, Forall (fun c => outside_ns c p) (cert :: rest) ->
                                 fs s2 !! p = fs s !! p)).
    { split_and!; try congruence.
      - exists (l1 ++ l2). rewrite Hl2, Hl1, app_assoc. split; [done|]. by apply Forall_app.
      - intros p Hp. apply Forall_cons in Hp as [Hp1 Hp2]. rewrite Hf2 by done. by apply Hf1. }
    destruct r as [g|e]; cbn [ret].
    + exists (g :: gen), failed, s2. split; [done|]. split; [|exact Hcommon].
      destruct (process_entry_ok E cert s g s1 He) as (cid & pdf & out & z & _ & _ & _ & _ & -> & _).
      cbn. by rewrite Hperm.
    + exists gen, (mk_fail (rec_id cert) (cert_id_of cert) e :: failed), s2.
      split; [done|]. split; [|exact Hcommon].
      cbn. rewrite <- Permutation_middle. by rewrite Hperm.
Qed.

(** ** The dispatch phase *)

Definition update_id (ev : event) : option string :=
  match ev with
  | EvUpdate id _ => Some id
  | EvZip _ _ => None
  end.

Definition update_ids (l : list event) : list string := omap update_id l.

Lemma git_commit_spec E s r s' :
  git_commit_packs E s = (r, s') ->
  fs s' = fs s /\ table s' = table s /\ events s' = events s /\
  (exists b, r = Ok b) /\
  (remote s' = remote s \/ (r = Ok true /\ remote s' = packs_tree (fs s))).
Proof.
  unfold git_commit_packs.
  destruct (dry_run E); [unfold ret; intros [= <- <-]; split_and!; eauto|].
  destruct (stage_ok E); cbn [negb]; [|unfold ret; intros [= <- <-]; split_and!; eauto].
  unfold_monad.
  destruct (decide (packs_tree (fs s) = committed s)); [intros [= <- <-]; split_and!; eauto|].
  destruct (commit_ok E); [destruct (push_ok E)|]; intros [= <- <-]; cbn; split_and!; eauto.
Qed.

Lemma table_update_spec E id payload s r s' :
  table_update E id payload s = (r, s') ->
  fs s' = fs s /\ committed s' = committed s /\ remote s' = remote s /\
  events s' = events s ++ [EvUpdate id payload] /\
  ((r = Ok tt /\ table s' = update_fields id payload (table s)) \/
   ((exists e, r = Exn e) /\ table s' = table s)).
Proof.
  unfold table_update. unfold_monad.
  destruct (update_ok E id && _); intros [= <- <-]; cbn; split_and!; eauto.
Qed.

Definition update_payload (cert_id pdf_sha256 zip_sha256 : value) (success : bool)
    (error_msg : value) (at_ : string) : list (string * value) :=
  if success then success_payload cert_id pdf_sha256 zip_sha256 at_
  else failure_payload error_msg at_.

Lemma update_airtable_spec E id c p z b em s r s' :
  update_airtable_record E id c p z b em s = (r, s') ->
  fs s' = fs s /\ committed s' = committed s /\ remote s' = remote s /\
  (dry_run E = true -> r = Ok tt /\ s' = s) /\
  (dry_run E = false -> exists at_,
     events s' = events s ++ [EvUpdate id (update_payload c p z b em at_)] /\
     ((r = Ok tt /\ table s' = update_fields id (update_payload c p z b em at_) (table s)) \/
      ((exists e, r = Exn e) /\ table s' = table s))).
Proof.
  unfold update_airtable_record, update_payload.
  destruct (dry_run E) eqn:Hd; [unfold ret; intros [= <- <-]; split_and!; done|].
  unfold bind at 1, now. intros Hu.
  assert (Hu' : table_update E id (if b then success_payload c p z (isoformat (clock E (ticks s)))
                                   else failure_payload em (isoformat (clock E (ticks s)))) (tick s)
                = (r, s')) by (destruct b; exact Hu).
  apply table_update_spec in Hu' as (H1 & H2 & H3 & H4 & H5).
  cbn in *. split_and!; try done. intros _. eexists. split; [exact H4|exact H5].
Qed.

(** The payloads sent by the two loops of [main]. *)
Definition gen_payload (commit_success : bool) (item : gen_item) (at_ : string) :=
  update_payload (g_cert_id item) (VStr (g_pdf_sha256 item)) (VStr (g_zip_sha256 item))
    commit_success (if commit_success then VNone else VStr "Git commit failed") at_.

Definition fail_payload (item : fail_item) (at_ : string) :=
  update_payload (f_cert_id item) VNone VNone false (VStr (f_error item)) at_.

(** The status-update events of one [for item in ...] loop. *)
Definition updates_of {A} (id_of : A -> string) (payload_of : A -> string -> list (string * value))
    (items : list A) (l : list event) : Prop :=
  Forall2 (fun item ev => exists at_, ev = EvUpdate (id_of item) (payload_of item at_)) items l.

Lemma update_generated_spec E gen b s r s' :
  update_generated E gen b s = (r, s') ->
  fs s' = fs s /\ committed s' = committed s /\ remote s' = remote s /\
  exists l done_, events s' = events s ++ l /\ done_ `prefix_of` gen /\
    updates_of g_record_id (gen_payload b) done_ l /\
    (dry_run E = true -> l = [] /\ r = Ok tt) /\
    (dry_run E = false -> r = Ok tt -> done_ = gen).
Proof.
  revert s. induction gen as [|item gen IH]; intros s.
  - cbn. unfold ret. intros [= <- <-]. split_and!; try done.
    exists [], []. split_and!; try done; [by rewrite app_nil_r | constructor].
  - cbn [update_generated]. unfold bind at 1.
    destruct (update_airtable_record _ _ _ _ _ _ _ s) as [r1 s1] eqn:Hu.
    apply update_airtable_spec in Hu as (F1 & C1 & R1 & Hdry & Hlive).
    destruct (dry_run E) eqn:Hd.
    + destruct (Hdry eq_refl) as [-> ->]. intros Hrest.
      apply IH in Hrest as (F2 & C2 & R2 & l & done_ & Hl & _ & _ & Hnil & _).
      destruct (Hnil eq_refl) as [-> ->].
      split_and!; try done. exists [], []. split_and!; try done.
      apply prefix_nil. constructor.
    + destruct (Hlive eq_refl) as (at_ & Hev & [[-> Ht] | [[e ->] Ht]]).
      * intros Hrest. apply IH in Hrest as (F2 & C2 & R2 & l & done_ & Hl & Hpre & Hup & _ & Hall).
        split_and!; try congruence.
        eexists (_ :: l), (item :: done_).
        split_and!.
        -- rewrite Hl, Hev, <- app_assoc. reflexivity.
        -- by apply prefix_cons.
        -- constructor; [by eexists|exact Hup].
        -- done.
        -- intros _ Hok. by rewrite (Hall eq_refl Hok).
      * intros [= <- <-]. split_and!; try done.
        eexists [_], [item].
        split_and!.
        -- rewrite Hev. reflexivity.
        -- apply prefix_cons, prefix_nil.
        -- constructor; [by eexists|constructor].
        -- done.
        -- done.
Qed.

Lemma update_failed_spec E failed s r s' :
  update_failed E failed s = (r, s') ->
  fs s' = fs s /\ committed s' = committed s /\ remote s' = remote s /\
  exists l done_, events s' = events s ++ l /\ done_ `prefix_of` failed /\
    updates_of f_record_id fail_payload done_ l /\
    (dry_run E = true -> l = [] /\ r = Ok tt) /\
    (dry_run E = false -> r = Ok tt -> done_ = failed).
Proof.
  revert s. induction failed as [|item failed IH]; intros s.
  - cbn. unfold ret. intros [= <- <-]. split_and!; try done.
    exists [], []. split_and!; try done; [by rewrite app_nil_r | constructor].
  - cbn [update_failed]. unfold bind at 1.
    destruct (update_airtable_record _ _ _ _ _ _ _ s) as [r1 s1] eqn:Hu.
    apply update_airtable_spec in Hu as (F1 & C1 & R1 & Hdry & Hlive).
    destruct (dry_run E) eqn:Hd.
    + destruct (Hdry eq_refl) as [-> ->]. intros Hrest.
      apply IH in Hrest as (F2 & C2 & R2 & l & done_ & Hl & _ & _ & Hnil & _).
      destruct (Hnil eq_refl) as [-> ->].
      split_and!; try done. exists [], []. split_and!; try done.
      apply prefix_nil. constructor.
    + destruct (Hlive eq_refl) as (at_ & Hev & [[-> Ht] | [[e ->] Ht]]).
      * intros Hrest. apply IH in Hrest as (F2 & C2 & R2 & l & done_ & Hl & Hpre & Hup & _ & Hall).
        split_and!; try congruence.
        eexists (_ :: l), (item :: done_).
        split_and!.
        -- rewrite Hl, Hev, <- app_assoc. reflexivity.
        -- by apply prefix_cons.
        -- constructor; [by eexists|exact Hup].
        -- done.
        -- intros _ Hok. by rewrite (Hall eq_refl Hok).
      * intros [= <- <-]. split_and!; try done.
        eexists [_], [item].
        split_and!.
        -- rewrite Hev. reflexivity.
        -- apply prefix_cons, prefix_nil.
        -- constructor; [by eexists|constructor].
        -- done.
        -- done.
Qed.

Lemma updates_of_ids {A} id_of pay (items : list A) l :
  updates_of id_of pay items l -> update_ids l = map id_of items.
Proof.
  unfold update_ids. induction 1 as [|item ev items l [at_ ->] _ IH]; [done|]. cbn. by rewrite IH.
Qed.

Lemma updates_of_length {A} id_of pay (items : list A) l :
  updates_of id_of pay items l -> length l = length items.
Proof. intros H. symmetry. by eapply Forall2_length. Qed.

Lemma dispatch_live E gen failed s s' :
  dry_run E = false -> gen <> [] ->
  dispatch E gen failed s = (Ok tt, s') ->
  exists b s1 s2 l1 l2,
    git_commit_packs E s = (Ok b, s1) /\
    update_generated E gen b s1 = (Ok tt, s2) /\
    update_failed E failed s2 = (Ok tt, s') /\
    events s' = events s ++ l1 ++ l2 /\
    updates_of g_record_id (gen_payload b) gen l1 /\
    updates_of f_record_id fail_payload failed l2.
Proof.
  intros Hd Hne. unfold dispatch. rewrite decide_False by done. unfold bind at 1 2.
  destruct (git_commit_packs E s) as [r1 s1] eqn:Hg.
  pose proof (git_commit_spec _ _ _ _ Hg) as (_ & _ & Eg & [b ->] & _).
  destruct (update_generated E gen b s1) as [r2 s2] eqn:Hu.
  destruct r2 as [[]|e]; [|intros [=]].
  intros Hf.
  pose proof (update_generated_spec _ _ _ _ _ _ Hu) as (_ & _ & _ & l1 & d1 & E1 & _ & U1 & _ & A1).
  pose proof (update_failed_spec _ _ _ _ _ Hf) as (_ & _ & _ & l2 & d2 & E2 & _ & U2 & _ & A2).
  rewrite (A1 Hd eq_refl) in U1. rewrite (A2 Hd eq_refl) in U2.
  exists b, s1, s2, l1, l2. split_and!; try done.
  by rewrite E2, E1, Eg, app_assoc.
Qed.

Lemma update_ids_app l1 l2 : update_ids (l1 ++ l2) = update_ids l1 ++ update_ids l2.
Proof. apply omap_app. Qed.

Lemma map_prefix {A B} (f : A -> B) l1 l2 :
  l1 `prefix_of` l2 -> map f l1 `prefix_of` map f l2.
Proof. intros [k ->]. rewrite List.map_app. by eexists. Qed.

Lemma dispatch_spec E gen failed s r s' :
  dispatch E gen failed s = (r, s') ->
  fs s' = fs s /\
  (gen = [] -> remote s' = remote s /\ committed s' = committed s) /\
  (remote s' = remote s \/ remote s' = packs_tree (fs s)) /\
  exists l, events s' = events s ++ l /\
    update_ids l `prefix_of` map g_record_id gen ++ map f_record_id failed /\
    (dry_run E = true -> l = []) /\
    (dry_run E = false -> r = Ok tt ->
       update_ids l = map g_record_id gen ++ map f_record_id failed).
Proof.
  unfold dispatch. destruct (decide (gen = [])) as [->|Hne].
  - unfold bind at 1, ret. intros Hf.
    pose proof (update_failed_spec _ _ _ _ _ Hf) as (F & C & R & l & d & El & Hp & U & Hdry & All).
    split_and!; try done; [by left|].
    exists l. split_and!; try done.
    + rewrite (updates_of_ids _ _ _ _ U). by apply map_prefix.
    + intros Hd. by destruct (Hdry Hd).
    + intros Hd Hok. rewrite (updates_of_ids _ _ _ _ U). by rewrite (All Hd Hok).
  - unfold bind at 1 2.
    destruct (git_commit_packs E s) as [r1 s1] eqn:Hg.
    pose proof (git_commit_spec _ _ _ _ Hg) as (Fg & _ & Eg & [b ->] & Rg).
    destruct (update_generated E gen b s1) as [r2 s2] eqn:Hu.
    pose proof (update_generated_spec _ _ _ _ _ _ Hu)
      as (F1 & _ & R1 & l1 & d1 & E1 & P1 & U1 & Dry1 & All1).
    assert (Hrem : remote s2 = remote s \/ remote s2 = packs_tree (fs s))
      by (rewrite R1; destruct Rg as [->|[_ ->]]; auto).
    destruct r2 as [[]|e].
    + intros Hf.
      pose proof (update_failed_spec _ _ _ _ _ Hf)
        as (F2 & _ & R2 & l2 & d2 & E2 & P2 & U2 & Dry2 & All2).
      split_and!; [congruence|done|by rewrite R2|].
      exists (l1 ++ l2). split_and!.
      * by rewrite E2, E1, Eg, app_assoc.
      * rewrite update_ids_app, (updates_of_ids _ _ _ _ U1), (updates_of_ids _ _ _ _ U2).
        destruct (dry_run E) eqn:Hd.
        -- destruct (Dry1 eq_refl) as [-> _]. destruct (Dry2 eq_refl) as [-> _].
           apply updates_of_length in U1, U2. destruct d1, d2; try done.
           apply prefix_nil.
        -- rewrite (All1 eq_refl eq_refl). apply prefix_app. by apply map_prefix.
      * intros Hd. destruct (Dry1 Hd) as [-> _]. destruct (Dry2 Hd) as [-> _]. done.
      * intros Hd Hok.
        rewrite update_ids_app, (updates_of_ids _ _ _ _ U1), (updates_of_ids _ _ _ _ U2).
        by rewrite (All1 Hd eq_refl), (All2 Hd Hok).
    + intros [= <- <-]. split_and!; [congruence|done|done|].
      exists l1. split_and!.
      * by rewrite E1, Eg.
      * rewrite (updates_of_ids _ _ _ _ U1). apply prefix_app_r. by apply map_prefix.
      * intros Hd. by destruct (Dry1 Hd).
      * done.
Qed.

Lemma update_ids_pack_zips l : Forall is_pack_zip l -> update_ids l = [].
Proof.
  unfold update_ids. induction 1 as [|ev l Hev _ IH]; [done|].
  destruct ev; [|done]. cbn. exact IH.
Qed.

Lemma NoDup_map_filter {A B} (f : A -> B) (P : A -> bool) l :
  NoDup (map f l) -> NoDup (map f (List.filter P l)).
Proof.
  intros Hl. eapply sublist_NoDup; [exact Hl|]. clear Hl.
  induction l as [|x l IH]; [done|]. cbn.
  destruct (P x); [apply sublist_skip|apply sublist_cons]; exact IH.
Qed.

Lemma NoDup_prefix {A} (l1 l2 : list A) : NoDup l2 -> l1 `prefix_of` l2 -> NoDup l1.
Proof. intros Hl [k ->]. by apply NoDup_app in Hl as [? _]. Qed.

(** What a run of [main] does to the event trace: only archive events and
    at most one status update per selected entry. *)
Lemma main_spec E s r s' :
  main E s = (r, s') ->
  exists l ids, events s' = events s ++ l /\
    ids ≡ₚ map rec_id (List.filter is_pending (table s)) /\
    update_ids l `prefix_of` ids /\
    (r = Ok tt -> dry_run E = false -> update_ids l = ids).
Proof.
  unfold main. destruct (configured E); cbn [negb].
  2:{ unfold raise. intros [= <- <-].
      exists [], (map rec_id (List.filter is_pending (table s))).
      rewrite app_nil_r. split_and!; try done. apply prefix_nil. }
  unfold bind at 1, get_pending_certifications, gets. cbv beta iota.
  destruct (decide (List.filter is_pending (table s) = [])) as [Hnil|Hne].
  { unfold ret. intros [= <- <-].
    exists [], (map rec_id (List.filter is_pending (table s))).
    rewrite app_nil_r, Hnil. split_and!; done. }
  unfold bind at 1.
  destruct (process_all_spec E (List.filter is_pending (table s)) s)
    as (gen & failed & s1 & Hp & Hperm & _ & _ & _ & (l0 & E0 & Z0) & _).
  rewrite Hp. intros Hd.
  destruct (dispatch_spec _ _ _ _ _ _ Hd) as (_ & _ & _ & l1 & E1 & P1 & _ & A1).
  exists (l0 ++ l1), (map g_record_id gen ++ map f_record_id failed).
  split_and!.
  - by rewrite E1, E0, app_assoc.
  - exact Hperm.
  - by rewrite update_ids_app, (update_ids_pack_zips _ Z0).
  - intros Hok Hdry. by rewrite update_ids_app, (update_ids_pack_zips _ Z0), (A1 Hdry Hok).
Qed.


(** ** The gating flag *)


Lemma is_pending_failure i f e at_ :
  is_pending (mk_record i (apply_payload (failure_payload e at_) f)) = is_pending (mk_record i f).
Proof.
  unfold is_pending, apply_payload, failure_payload. cbn [foldl rec_fields fst snd].
  by rewrite !lookup_insert_ne.
Qed.










Definition is_update (ev : event) : Prop :=
  match ev with
  | EvUpdate _ _ => True
  | EvZip _ _ => False
  end.

Lemma updates_of_is_update {A} id_of pay (items : list A) l :
  updates_of id_of pay items l -> Forall is_update l.
Proof. induction 1 as [|item ev items l [at_ ->] _ IH]; constructor; done. Qed.

Lemma dispatch_updates E gen failed s r s' :
  dispatch E gen failed s = (r, s') ->
  exists l, events s' = events s ++ l /\ Forall is_update l.
Proof.
  unfold dispatch. unfold bind at 1. intros Hd.
  destruct (if decide (gen = []) then ret tt else _) as [r1 s1] eqn:H1 in Hd.
  assert (exists l1, events s1 = events s ++ l1 /\ Forall is_update l1) as (l1 & E1 & U1).
  { destruct (decide (gen = [])).
    - unfold ret in H1. injection H1 as _ <-. exists []. by rewrite app_nil_r.
    - unfold bind in H1. destruct (git_commit_packs E s) as [r0 s0] eqn:Hg.
      pose proof (git_commit_spec _ _ _ _ Hg) as (_ & _ & Eg & [b ->] & _).
      pose proof (update_generated_spec _ _ _ _ _ _ H1) as (_ & _ & _ & l & d & El & _ & U & _).
      exists l. rewrite El, Eg. split; [done|]. by eapply updates_of_is_update. }
  destruct r1 as [[]|e]; [|injection Hd as <- <-; by exists l1].
  pose proof (update_failed_spec _ _ _ _ _ Hd) as (_ & _ & _ & l2 & d2 & E2 & _ & U2 & _).
  exists (l1 ++ l2). rewrite E2, E1, app_assoc. split; [done|].
  apply Forall_app. split; [done|]. by eapply updates_of_is_update.
Qed.

(** The events of a run: the archives of the loop, then status updates. *)
Lemma main_events E s r s' :
  main E s = (r, s') ->
  exists l0 l1, events s' = events s ++ l0 ++ l1 /\ Forall is_pack_zip l0 /\ Forall is_update l1.
Proof.
  unfold main. destruct (configured E); cbn [negb].
  2:{ unfold raise. intros [= <- <-]. exists [], []. by rewrite !app_nil_r. }
  unfold bind at 1, get_pending_certifications, gets. cbv beta iota.
  destruct (decide (List.filter is_pending (table s) = [])).
  { unfold ret. intros [= <- <-]. exists [], []. by rewrite !app_nil_r. }
  unfold bind at 1.
  destruct (process_all_spec E (List.filter is_pending (table s)) s)
    as (gen & failed & s1 & Hp & _ & _ & _ & _ & (l0 & E0 & Z0) & _).
  rewrite Hp. intros Hd.
  destruct (dispatch_updates _ _ _ _ _ _ Hd) as (l1 & E1 & U1).
  exists l0, l1. by rewrite E1, E0, app_assoc.
Qed.

(** The file entries ("1) name", "2) name", ...) of a manifest. *)
Definition listed_file (line : string) : option string :=
  match line with
  | String d (String ")" (String " " name)) =>
      if Nat.leb 48 (nat_of_ascii d) && Nat.leb (nat_of_ascii d) 57 then Some name else None
  | _ => None
  end.

(** The fields that [generate_pdf] displays. *)
Definition displayed_fields : list string :=
  ["Certification_ID"; "Entity_Name"; "Entity_Type"; "Jurisdiction";
   "Issued_Date"; "Expiration_Date"; "High_Level_Scope"].

Lemma story_ext f1 f2 t d :
  (forall k, k ∈ displayed_fields -> f1 !! k = f2 !! k) ->
  pdf_story f1 t = pdf_story f2 t /\ pdf_metadata f1 d = pdf_metadata f2 d.
Proof.
  intros H. unfold pdf_story, pdf_metadata, field_get.
  rewrite !H by (cbv [displayed_fields]; set_solver). done.
Qed.

Lemma story_timestamp_inj f t1 t2 : pdf_story f t1 = pdf_story f t2 -> t1 = t2.
Proof. unfold pdf_story. intros [= H]. by apply app_cancel_l in H. Qed.

Lemma metadata_date_inj f d1 d2 : pdf_metadata f d1 = pdf_metadata f d2 -> d1 = d2.
Proof. unfold pdf_metadata. by intros [= H]. Qed.

Lemma updates_of_elem {A} id_of pay (items : list A) l item :
  updates_of id_of pay items l -> item ∈ items ->
  exists at_, EvUpdate (id_of item) (pay item at_) ∈ l.
Proof.
  induction 1 as [|x ev items l [at_ ->] _ IH]; intros Hi; [inversion Hi|].
  apply elem_of_cons in Hi as [->|Hi].
  - exists at_. apply elem_of_cons. by left.
  - destruct (IH Hi) as [at' H]. exists at'. apply elem_of_cons. by right.
Qed.

Lemma updates_of_inv {A} id_of pay (items : list A) l id p :
  updates_of id_of pay items l -> EvUpdate id p ∈ l ->
  exists item at_, item ∈ items /\ id = id_of item /\ p = pay item at_.
Proof.
  induction 1 as [|x ev items l [at_ ->] _ IH]; intros Hi; [inversion Hi|].
  apply elem_of_cons in Hi as [Hi|Hi].
  - injection Hi as -> ->. exists x, at_. split_and!; [apply elem_of_cons; by left|done|done].
  - destruct (IH Hi) as (item & at' & ? & ? & ?). exists item, at'.
    split_and!; [apply elem_of_cons; by right|done|done].
Qed.

(** The status updates of one record among a list of events. *)
Definition updates_for (id : string) (l : list event) : list event :=
  List.filter (fun ev => bool_decide (update_id ev = Some id)) l.






(** Where the remote ends after [git_commit_packs]: the staged tree when
    every git step succeeds on a changed tree, unchanged when one fails. *)
Lemma git_commit_remote E s r s' :
  git_commit_packs E s = (r, s') ->
  (dry_run E = false -> stage_ok E = true -> commit_ok E = true -> push_ok E = true ->
     packs_tree (fs s) <> committed s -> remote s' = packs_tree (fs s)) /\
  (dry_run E = true \/ stage_ok E = false \/ commit_ok E = false \/ push_ok E = false ->
     remote s' = remote s).
Proof.
  unfold git_commit_packs.
  destruct (dry_run E); [unfold ret; intros [= <- <-]; split; [discriminate|done]|].
  destruct (stage_ok E); cbn [negb]; [|unfold ret; intros [= <- <-]; split; [discriminate|done]].
  unfold_monad.
  destruct (decide (packs_tree (fs s) = committed s)) as [Hs|Hs].
  - intros [= <- <-]. split; [done|]. done.
  - destruct (commit_ok E); [destruct (push_ok E)|]; intros [= <- <-]; cbn;
      split; intros; try done; repeat match goal with H : _ \/ _ |- _ => destruct H end;
      discriminate.
Qed.

(** The steps of [dispatch] when some entry was generated. *)
Lemma dispatch_git E gen failed s r s' :
  gen <> [] -> dispatch E gen failed s = (r, s') ->
  exists b s1 r2 s2, git_commit_packs E s = (Ok b, s1) /\
    update_generated E gen b s1 = (r2, s2) /\
    ((r2 = Ok tt /\ update_failed E failed s2 = (r, s')) \/
     (exists e, r2 = Exn e /\ r = Exn e /\ s' = s2)).
Proof.
  intros Hne. unfold dispatch. rewrite decide_False by done. unfold bind at 1 2.
  destruct (git_commit_packs E s) as [r1 s1] eqn:Hg.
  pose proof (git_commit_spec _ _ _ _ Hg) as (_ & _ & _ & [b ->] & _).
  destruct (update_generated E gen b s1) as [r2 s2] eqn:Hu.
  destruct r2 as [[]|e].
  - intros Hf. exists b, s1, (Ok tt), s2. split_and!; auto.
  - intros [= <- <-]. exists b, s1, (Exn e), s2. split_and!; eauto.
Qed.

(** After a run of [dispatch] with some generated entry, the remote is where
    [git_commit_packs] left it. *)
Lemma dispatch_remote E gen failed s r s' :
  gen <> [] -> dispatch E gen failed s = (r, s') ->
  exists rg s1, git_commit_packs E s = (rg, s1) /\ remote s' = remote s1.
Proof.
  intros Hne Hd. destruct (dispatch_git _ _ _ _ _ _ Hne Hd) as (b & s1 & r2 & s2 & Hg & Hu & Hrest).
  exists (Ok b), s1. split; [done|].
  destruct (update_generated_spec _ _ _ _ _ _ Hu) as (_ & _ & R2 & _).
  destruct Hrest as [[_ Hf]|(e & _ & _ & ->)]; [|done].
  destruct (update_failed_spec _ _ _ _ _ Hf) as (_ & _ & R3 & _). congruence.
Qed.


Lemma packs_tree_lookup m p : head p = Some "packs" -> packs_tree m !! p = m !! p.
Proof.
  intros H. unfold packs_tree. rewrite map_lookup_filter.
  destruct (m !! p); cbn; [|done]. by rewrite option_guard_True.
Qed.

Lemma outside_other_id c cert cid p :
  cert_id_of cert = VStr cid -> cert_id_of c <> cert_id_of cert -> p !! 1 = Some cid ->
  outside_ns c p.
Proof. intros Hc Hne Hp cid' Hc' Hp'. rewrite Hp in Hp'. injection Hp' as ->. congruence. Qed.

End Steps.

(* ------------------------------------------------------------------ *)
(** ** Concrete collaborators and records *)

Module Demo.
Import Steps.

Fixpoint concat_str (l : list string) : string :=
  match l with
  | [] => ""
  | x :: l => x +:+ concat_str l
  end.

Definition flow_text (f : flowable) : string :=
  match f with
  | Para t => t
  | Spacer => " "
  | TableRows rows => concat_str (map (fun kv => kv.1 +:+ kv.2) rows)
  end.

(** A renderer, a PDF/A writer, an archiver and a digest that keep their
    whole input visible in their output (all four are injective); the two PDF
    engines stamp nothing of their own. *)
Definition render_demo (story : list flowable) (_ : nat) : option string :=
  Some ("PDF[" +:+ concat_str (map flow_text story) +:+ "]").

Definition pdfa_demo (src : string) (meta : list (string * string)) (_ : nat) : option string :=
  Some (src +:+ "XMP[" +:+ concat_str (map (fun kv => kv.1 +:+ "=" +:+ kv.2 +:+ ";") meta) +:+ "]").

Definition zip_demo (entries : list (string * string)) : option string :=
  Some ("ZIP[" +:+ concat_str (map (fun kv => kv.1 +:+ "=" +:+ kv.2 +:+ ";") entries) +:+ "]").

Definition sha_demo (b : string) : string := "sha(" +:+ b +:+ ")".

(** [datetime.now()] on 2026-01-15, one second per call. *)
Definition clock_demo (n : nat) : datetime := mk_datetime 2026 1 15 12 (n / 60) (n mod 60) 0.

Definition demo_env : env :=
  mk_env true false render_demo pdfa_demo zip_demo sha_demo clock_demo true true true (fun _ => true).

(** Airtable rejects every update. *)
Definition env_http_fail : env :=
  mk_env true false render_demo pdfa_demo zip_demo sha_demo clock_demo true true true (fun _ => false).

(** pikepdf fails on the document of the entity "Broken Corp". *)
Definition pdfa_broken (src : string) (meta : list (string * string)) (n : nat) : option string :=
  if existsb (fun kv => bool_decide (kv.2 = "Official issuance pack for Broken Corp")) meta
  then None else pdfa_demo src meta n.

Definition env_broken : env :=
  mk_env true false render_demo pdfa_broken zip_demo sha_demo clock_demo true true true (fun _ => true).

(** [git push] fails. *)
Definition env_push_fail : env :=
  mk_env true false render_demo pdfa_demo zip_demo sha_demo clock_demo true true false (fun _ => true).

(** [git push] fails, and Airtable rejects the update of rec1. *)
Definition env_push_fail_rec1 : env :=
  mk_env true false render_demo pdfa_demo zip_demo sha_demo clock_demo true true false
    (fun id => negb (bool_decide (id = "rec1"))).


(** The archiver fails on a pack that mentions the entity "Broken Corp". *)
Definition zip_broken (entries : list (string * string)) : option string :=
  if existsb (fun kv => if String.index 0 "Broken Corp" kv.2 then true else false) entries
  then None else zip_demo entries.

Definition env_zip_broken : env :=
  mk_env true false render_demo pdfa_demo zip_broken sha_demo clock_demo true true true (fun _ => true).

Definition fields_of (l : list (string * value)) : gmap string value := list_to_map l.

Definition cert_fields (cid entity : string) : gmap string value :=
  fields_of [("Certification_ID", VStr cid); ("Entity_Name", VStr entity);
             ("Status", VStr "Active"); ("Issue_Now", VBool true)].

Definition r_acme : airtable_record := mk_record "rec1" (cert_fields "CERT-001" "Acme Corp").
Definition r_beta : airtable_record := mk_record "rec2" (cert_fields "CERT-002" "Beta LLC").
Definition r_broken : airtable_record := mk_record "rec3" (cert_fields "CERT-003" "Broken Corp").
(** A second record carrying the Certification_ID of [r_acme]. *)
Definition r_acme_broken : airtable_record := mk_record "rec4" (cert_fields "CERT-001" "Broken Corp").
(** Two records without a Certification_ID. *)
Definition r_anon1 : airtable_record :=
  mk_record "rec5" (fields_of [("Entity_Name", VStr "Gamma"); ("Status", VStr "Active");
                               ("Issue_Now", VBool true)]).
Definition r_anon2 : airtable_record :=
  mk_record "rec6" (fields_of [("Entity_Name", VStr "Delta"); ("Status", VStr "Active");
                               ("Issue_Now", VBool true)]).

Definition st0 (t : list airtable_record) : state := mk_state ∅ ∅ ∅ t 0 [].

(** The loop of [main] over the selected records of a table, from [st0]. *)
Definition loop_run (E : env) (t : list airtable_record) :=
  process_all E (List.filter is_pending t) (st0 t).

Definition gen_of (r : exc (list gen_item * list fail_item)) : list gen_item :=
  match r with Ok (g, _) => g | Exn _ => [] end.

Definition failed_of (r : exc (list gen_item * list fail_item)) : list fail_item :=
  match r with Ok (_, f) => f | Exn _ => [] end.

Definition get (m : gmap path string) (p : path) : string := default "" (m !! p).

End Demo.

(* ------------------------------------------------------------------ *)
(** * The claims *)

Module Claims.
Import Names Steps Demo.

(** C9: in every run of [main], each archive that is assembled has exactly
    the members [<id>_issuance_pack.pdf] and [CONTENTS_MANIFEST.txt], so none
    is named MANIFEST.txt; and the contents manifest lists one file, the
    PDF, whose name is not the archive's. *)
Theorem archive_never_contains_master E s r s' :
  main E s = (r, s') ->
  (exists l, events s' = events s ++ l /\
     forall zn names, EvZip zn names ∈ l ->
       exists cid, zn = cid +:+ "_issuance_pack.zip" /\
         names = [cid +:+ "_issuance_pack.pdf"; "CONTENTS_MANIFEST.txt"] /\
         "MANIFEST.txt" ∉ names) /\
  (forall cid sha size ts,
     omap listed_file (contents_manifest_lines cid (pdf_path cid) sha size ts)
       = [cid +:+ "_issuance_pack.pdf"] /\
     cid +:+ "_issuance_pack.pdf" <> cid +:+ "_issuance_pack.zip").
Proof.
  intros Hm. split.
  - destruct (main_events _ _ _ _ Hm) as (l0 & l1 & El & Z0 & U1).
    exists (l0 ++ l1). split; [exact El|].
    intros zn names Hin. apply elem_of_app in Hin as [Hin|Hin].
    + rewrite Forall_forall in Z0. destruct (Z0 _ Hin) as (cid & -> & ->).
      exists cid. split_and!; [done|done|].
      rewrite elem_of_cons, elem_of_cons, elem_of_nil.
      intros [H|[H|[]]]; [by apply (pdf_ne_master cid)|discriminate].
    + rewrite Forall_forall in U1. exact (False_ind _ (U1 _ Hin)).
  - intros cid sha size ts. split; [reflexivity|apply pdf_ne_zip].
Qed.

Lemma archive_never_contains_master_witness :
  let run := main demo_env (st0 [r_acme]) in
  run = (Ok tt, run.2) /\
  (exists l, events run.2 = events (st0 [r_acme]) ++ l /\
     forall zn names, EvZip zn names ∈ l ->
       exists cid, zn = cid +:+ "_issuance_pack.zip" /\
         names = [cid +:+ "_issuance_pack.pdf"; "CONTENTS_MANIFEST.txt"] /\
         "MANIFEST.txt" ∉ names) /\
  (forall cid sha size ts,
     omap listed_file (contents_manifest_lines cid (pdf_path cid) sha size ts)
       = [cid +:+ "_issuance_pack.pdf"] /\
     cid +:+ "_issuance_pack.pdf" <> cid +:+ "_issuance_pack.zip").
Proof.
  split; [vm_compute; reflexivity|].
  apply (archive_never_contains_master demo_env (st0 [r_acme]) (Ok tt)).
  vm_compute. reflexivity.
Defined.

(** C8: when record ids are unique, the loop of [main] classifies every
    selected record exactly once, as generated or as failed (the two id lists
    together are a permutation of the selected ids, so none is dropped and none
    is in both); and a run of [main] calls [table.update] at most once per
    record, only for selected records, and, when the run completes live, once
    for every selected record. *)
Theorem one_terminal_state_per_entry E s r s' :
  NoDup (map rec_id (table s)) ->
  main E s = (r, s') ->
  (exists gen failed s1,
     process_all E (List.filter is_pending (table s)) s = (Ok (gen, failed), s1) /\
     map g_record_id gen ++ map f_record_id failed
       ≡ₚ map rec_id (List.filter is_pending (table s)) /\
     NoDup (map g_record_id gen ++ map f_record_id failed)) /\
  (exists l, events s' = events s ++ l /\
     NoDup (update_ids l) /\
     (forall id, id ∈ update_ids l -> id ∈ map rec_id (List.filter is_pending (table s))) /\
     (r = Ok tt -> dry_run E = false ->
        update_ids l ≡ₚ map rec_id (List.filter is_pending (table s)))).
Proof.
  intros Hnd Hm.
  pose proof (NoDup_map_filter rec_id is_pending _ Hnd) as Hnd'.
  split.
  - destruct (process_all_spec E (List.filter is_pending (table s)) s)
      as (gen & failed & s1 & Hp & Hperm & _).
    exists gen, failed, s1. split_and!; [done|done|]. by rewrite Hperm.
  - destruct (main_spec _ _ _ _ Hm) as (l & ids & El & Hperm & Hpre & Hall).
    exists l. split_and!.
    + exact El.
    + eapply NoDup_prefix; [|exact Hpre]. by rewrite Hperm.
    + intros id Hid. rewrite <- Hperm. destruct Hpre as [k Hk].
      rewrite Hk. apply elem_of_app. by left.
    + intros Hok Hd. by rewrite (Hall Hok Hd).
Qed.

Lemma one_terminal_state_per_entry_witness :
  let s := st0 [r_acme; r_broken; r_beta] in
  let run := main env_broken s in
  NoDup (map rec_id (table s)) /\ run = (Ok tt, run.2) /\
  (exists gen failed s1,
     process_all env_broken (List.filter is_pending (table s)) s = (Ok (gen, failed), s1) /\
     map g_record_id gen ++ map f_record_id failed
       ≡ₚ map rec_id (List.filter is_pending (table s)) /\
     NoDup (map g_record_id gen ++ map f_record_id failed)) /\
  (exists l, events run.2 = events s ++ l /\
     NoDup (update_ids l) /\
     (forall id, id ∈ update_ids l -> id ∈ map rec_id (List.filter is_pending (table s))) /\
     (Ok tt = Ok tt -> dry_run env_broken = false ->
        update_ids l ≡ₚ map rec_id (List.filter is_pending (table s)))).
Proof.
  split; [refine (bool_decide_unpack _ _); vm_compute; reflexivity|].
  split; [vm_compute; reflexivity|].
  apply (one_terminal_state_per_entry env_broken (st0 [r_acme; r_broken; r_beta]) (Ok tt)).
  - refine (bool_decide_unpack _ _). vm_compute. reflexivity.
  - vm_compute. reflexivity.
Defined.

(** C2 (corrected): [generate_zip] raises no error for an absent input: it
    packages exactly the declared inputs that exist, in order, and fails only
    when the archiver itself fails. *)
Theorem generate_zip_packs_existing_inputs E cid files s :
  let fs0 := <[zip_path cid := ""]> (fs s) in
  let es := existing_entries fs0 files in
  let run := generate_zip E ["packs"; cid] cid files s in
  events run.2 = events s ++ [EvZip (cid +:+ "_issuance_pack.zip") (map fst es)] /\
  match zip_pack E es with
  | Some z => run.1 = Ok (zip_path cid, sha256 E z) /\ fs run.2 !! zip_path cid = Some z
  | None => run.1 = Exn "BadZipFile"
  end.
Proof.
  cbn zeta. rewrite generate_zip_eq. cbn zeta.
  destruct (zip_pack E _) as [z|]; cbn; [|done].
  split_and!; [done|done|]. by rewrite lookup_insert_eq.
Qed.

(** C2: the contents manifest is missing, and the archive is built
    from the PDF alone, without an error. *)
Lemma generate_zip_missing_input_counterexample :
  let s := mk_state {[pdf_path "CERT-001" := "PDF"]} ∅ ∅ [] 0 [] in
  let run := generate_zip demo_env ["packs"; "CERT-001"] "CERT-001"
               [pdf_path "CERT-001"; contents_path "CERT-001"] s in
  fs s !! contents_path "CERT-001" = None /\
  run.1 = Ok (zip_path "CERT-001", sha_demo "ZIP[CERT-001_issuance_pack.pdf=PDF;]") /\
  fs run.2 !! zip_path "CERT-001" = Some "ZIP[CERT-001_issuance_pack.pdf=PDF;]" /\
  events run.2 = [EvZip "CERT-001_issuance_pack.zip" ["CERT-001_issuance_pack.pdf"]].
Proof. vm_compute. split_and!; reflexivity. Qed.

(** C4 (corrected): [generate_pdf] hands the renderer the story whose
    "Generated:" line holds its first clock reading, and the PDF/A writer the
    metadata whose xmp:CreateDate holds its second reading; each engine also
    runs at its own later point of the run. On success the digest returned is
    that of the PDF/A writer's output, which is what is left at the document
    path. Different clock readings give the engines different inputs. *)
Theorem generate_pdf_engine_inputs E cert cid s :
  (forall h, (generate_pdf E cert (pdf_path cid) s).1 = Ok h ->
     exists pdf out,
       render E (pdf_story (rec_fields cert) (strftime_utc (clock E (ticks s)))) (S (ticks s))
         = Some pdf /\
       pdfa_save E pdf (pdf_metadata (rec_fields cert) (isoformat (clock E (S (ticks s)))))
         (S (S (ticks s))) = Some out /\
       h = sha256 E out /\
       fs (generate_pdf E cert (pdf_path cid) s).2 !! pdf_path cid = Some out) /\
  (forall f d1 d2, strftime_utc d1 <> strftime_utc d2 ->
     pdf_story f (strftime_utc d1) <> pdf_story f (strftime_utc d2)) /\
  (forall f d1 d2, isoformat d1 <> isoformat d2 ->
     pdf_metadata f (isoformat d1) <> pdf_metadata f (isoformat d2)).
Proof.
  split_and!.
  - intros h. rewrite generate_pdf_eq.
    destruct (render E _ _) as [pdf|] eqn:Hr; [|done].
    destruct (pdfa_save E _ _ _) as [out|] eqn:Hq; [|done].
    cbn [fst snd fs]. intros [= <-]. exists pdf, out. split_and!; try done.
    by rewrite lookup_insert_eq.
  - intros f d1 d2 Hne Heq. by apply Hne, (story_timestamp_inj f).
  - intros f d1 d2 Hne Heq. by apply Hne, (metadata_date_inj f).
Qed.

(** C4: the same record, the same engine, two runs ten seconds apart: the
    document bytes and their digests differ. *)
Lemma generate_pdf_not_reproducible_counterexample :
  let run1 := generate_pdf demo_env r_acme (pdf_path "CERT-001") (st0 []) in
  let run2 := generate_pdf demo_env r_acme (pdf_path "CERT-001") (mk_state ∅ ∅ ∅ [] 10 []) in
  fs run1.2 !! pdf_path "CERT-001" <> fs run2.2 !! pdf_path "CERT-001" /\
  run1.1 <> run2.1.
Proof. vm_compute. split; discriminate. Qed.

(** C5 (corrected): when [git_commit_packs] reports a failure, the generated
    entries receive, in their order, status updates with the failure payload
    and the shared error "Git commit failed", up to the first update that
    raises, which aborts the run. No update of the run carries a success
    payload; the entries that failed in the loop are updated only once every
    generated entry has been; and when no update raises, every generated entry
    has received its failure result. *)
Theorem publish_failure_marks_failed_in_order E gen failed s s1 r s' :
  dry_run E = false -> gen <> [] ->
  git_commit_packs E s = (Ok false, s1) ->
  dispatch E gen failed s = (r, s') ->
  exists done_ l1 l2, events s' = events s ++ l1 ++ l2 /\
    done_ `prefix_of` gen /\
    Forall2 (fun item ev => exists at_,
               ev = EvUpdate (g_record_id item) (failure_payload (VStr "Git commit failed") at_))
      done_ l1 /\
    (forall id p, EvUpdate id p ∈ l2 -> exists e at_, p = failure_payload e at_) /\
    (l2 <> [] -> done_ = gen) /\
    (r = Ok tt -> done_ = gen).
Proof.
  intros Hd Hne Hg Hdisp.
  destruct (dispatch_git _ _ _ _ _ _ Hne Hdisp) as (b & s1' & r2 & s2 & Hg' & Hu & Hrest).
  rewrite Hg in Hg'. injection Hg' as <- <-.
  pose proof (git_commit_spec _ _ _ _ Hg) as (_ & _ & Eg & _).
  destruct (update_generated_spec _ _ _ _ _ _ Hu) as (_ & _ & _ & l1 & d & E1 & P1 & U1 & _ & A1).
  assert (U1' : Forall2 (fun item ev => exists at_,
               ev = EvUpdate (g_record_id item) (failure_payload (VStr "Git commit failed") at_))
                  d l1).
  { eapply Forall2_impl; [exact U1|]. intros item ev [at_ ->]. by exists at_. }
  destruct Hrest as [[-> Hf] | (e & -> & -> & ->)].
  - destruct (update_failed_spec _ _ _ _ _ Hf) as (_ & _ & _ & l2 & d2 & E2 & _ & U2 & _ & _).
    exists d, l1, l2. split_and!; [by rewrite E2, E1, Eg, app_assoc|exact P1|exact U1'| | |].
    + intros id p Hin. destruct (updates_of_inv _ _ _ _ _ _ U2 Hin) as (item & at_ & _ & _ & ->).
      by exists (VStr (f_error item)), at_.
    + intros _. exact (A1 Hd eq_refl).
    + intros _. exact (A1 Hd eq_refl).
  - exists d, l1, []. split_and!; [by rewrite app_nil_r, E1, Eg|exact P1|exact U1'| | |].
    + intros id p Hin. inversion Hin.
    + by intros [].
    + by intros [=].
Qed.

Lemma publish_failure_marks_failed_in_order_witness :
  let run := loop_run env_push_fail_rec1 [r_acme; r_beta] in
  let gen := gen_of run.1 in
  let git := git_commit_packs env_push_fail_rec1 run.2 in
  let disp := dispatch env_push_fail_rec1 gen [] run.2 in
  dry_run env_push_fail_rec1 = false /\ gen <> [] /\
  git = (Ok false, git.2) /\ disp = (disp.1, disp.2) /\
  exists done_ l1 l2, events disp.2 = events run.2 ++ l1 ++ l2 /\
    done_ `prefix_of` gen /\
    Forall2 (fun item ev => exists at_,
               ev = EvUpdate (g_record_id item) (failure_payload (VStr "Git commit failed") at_))
      done_ l1 /\
    (forall id p, EvUpdate id p ∈ l2 -> exists e at_, p = failure_payload e at_) /\
    (l2 <> [] -> done_ = gen) /\
    (disp.1 = Ok tt -> done_ = gen).
Proof.
  cbn zeta.
  split; [reflexivity|]. split; [vm_compute; discriminate|].
  split; [vm_compute; reflexivity|]. split; [exact (surjective_pairing _)|].
  apply (publish_failure_marks_failed_in_order env_push_fail_rec1 _ [] _
           (git_commit_packs env_push_fail_rec1 (loop_run env_push_fail_rec1 [r_acme; r_beta]).2).2);
    [reflexivity|vm_compute; discriminate|vm_compute; reflexivity|exact (surjective_pairing _)].
Defined.

(** C5: [git push] fails and Airtable rejects the update of rec1. Both
    records were generated; rec1 is sent its failure result, the HTTP error
    aborts the run, and rec2 receives no failure result. *)
Lemma publish_failure_partial_counterexample :
  let run := main env_push_fail_rec1 (st0 [r_acme; r_beta]) in
  map g_record_id (gen_of (loop_run env_push_fail_rec1 [r_acme; r_beta]).1) = ["rec1"; "rec2"] /\
  run.1 = Exn "HTTPError" /\
  updates_for "rec1" (events run.2) =
    [EvUpdate "rec1" (failure_payload (VStr "Git commit failed") (isoformat (clock_demo 7)))] /\
  updates_for "rec2" (events run.2) = [].
Proof. vm_compute. split_and!; reflexivity. Qed.




(** C7: two selected records carry the Certification_ID CERT-001; the
    archiver fails on the second one after [zipfile.ZipFile] has truncated the
    first one's archive. The run completes and pushes the first entry's
    MANIFEST.txt, which records the SHA-256 of the first archive, next to the
    truncated archive. *)
Lemma manifest_zip_digest_stale_counterexample :
  let s := st0 [r_acme; r_acme_broken] in
  let run := main env_zip_broken s in
  let first := process_entry env_zip_broken r_acme s in
  let pdf1 := get (fs first.2) (pdf_path "CERT-001") in
  let z1 := get (fs first.2) (zip_path "CERT-001") in
  run.1 = Ok tt /\
  remote run.2 !! master_path "CERT-001" =
    Some (master_text "CERT-001" (sha_demo pdf1) (String.length pdf1)
            (sha_demo z1) (String.length z1) (strftime_utc (clock_demo 0))) /\
  remote run.2 !! zip_path "CERT-001" = Some "" /\
  sha_demo z1 <> sha_demo "".
Proof. vm_compute. split_and!; [reflexivity|reflexivity|reflexivity|discriminate]. Qed.

(** C10: two records without a Certification_ID that both succeed one after
    the other are both issued under the identifier "Unknown", with the same
    document path; afterwards the files of packs/Unknown are the second
    entry's (the PDF and the archive whose digests it reports). *)
Theorem unknown_id_shares_namespace E c1 c2 s g1 s1 g2 s2 :
  rec_fields c1 !! "Certification_ID" = None ->
  rec_fields c2 !! "Certification_ID" = None ->
  process_entry E c1 s = (Ok g1, s1) ->
  process_entry E c2 s1 = (Ok g2, s2) ->
  g_cert_id g1 = VStr "Unknown" /\ g_cert_id g2 = VStr "Unknown" /\
  g_path g1 = pdf_path "Unknown" /\ g_path g2 = pdf_path "Unknown" /\
  exists out z,
    fs s2 !! pdf_path "Unknown" = Some out /\ sha256 E out = g_pdf_sha256 g2 /\
    fs s2 !! zip_path "Unknown" = Some z /\ sha256 E z = g_zip_sha256 g2.
Proof.
  intros N1 N2 H1 H2.
  destruct (process_entry_ok _ _ _ _ _ H1) as (cid1 & pdf1 & out1 & z1 & C1 & _ & _ & _ & -> & _).
  destruct (process_entry_ok _ _ _ _ _ H2)
    as (cid2 & pdf2 & out & z & C2 & _ & _ & _ & -> & L1 & _ & L3 & _).
  unfold cert_id_of, field_get in C1, C2. rewrite N1 in C1. rewrite N2 in C2.
  cbn in C1, C2. injection C1 as E1. injection C2 as E2. subst cid1 cid2.
  split_and!; try done. by exists out, z.
Qed.

Lemma unknown_id_shares_namespace_witness :
  let e1 := process_entry demo_env r_anon1 (st0 []) in
  let e2 := process_entry demo_env r_anon2 e1.2 in
  let g1 := match e1.1 with Ok g => g | Exn _ => mk_gen "" VNone "" "" [] end in
  let g2 := match e2.1 with Ok g => g | Exn _ => mk_gen "" VNone "" "" [] end in
  rec_fields r_anon1 !! "Certification_ID" = None /\
  rec_fields r_anon2 !! "Certification_ID" = None /\
  e1 = (Ok g1, e1.2) /\ e2 = (Ok g2, e2.2) /\
  g_cert_id g1 = VStr "Unknown" /\ g_cert_id g2 = VStr "Unknown" /\
  g_path g1 = pdf_path "Unknown" /\ g_path g2 = pdf_path "Unknown" /\
  exists out z,
    fs e2.2 !! pdf_path "Unknown" = Some out /\ sha256 demo_env out = g_pdf_sha256 g2 /\
    fs e2.2 !! zip_path "Unknown" = Some z /\ sha256 demo_env z = g_zip_sha256 g2.
Proof.
  cbn zeta.
  split; [vm_compute; reflexivity|]. split; [vm_compute; reflexivity|].
  split; [vm_compute; reflexivity|]. split; [vm_compute; reflexivity|].
  apply (unknown_id_shares_namespace demo_env r_anon1 r_anon2 (st0 []) _
           (process_entry demo_env r_anon1 (st0 [])).2);
    vm_compute; reflexivity.
Defined.

(** C3 (corrected): the loop publishes nothing. After it, the remote changes
    only through the commit made when some entry succeeded, and then it holds
    the whole [packs/] subtree of the working tree as the loop left it, which
    includes the files that failed entries wrote before failing: this happens
    whenever staging, commit and push succeed on a tree that differs from the
    last commit. In a dry run, or when a git step fails, the remote is left as
    it was. *)
Theorem publish_only_after_loop E pending s gen failed s1 r s2 :
  process_all E pending s = (Ok (gen, failed), s1) ->
  dispatch E gen failed s1 = (r, s2) ->
  remote s1 = remote s /\
  (gen = [] -> remote s2 = remote s) /\
  (remote s2 = remote s \/ remote s2 = packs_tree (fs s1)) /\
  (dry_run E = false -> gen <> [] -> stage_ok E = true -> commit_ok E = true ->
     push_ok E = true -> packs_tree (fs s1) <> committed s ->
     remote s2 = packs_tree (fs s1)) /\
  (dry_run E = true \/ stage_ok E = false \/ commit_ok E = false \/ push_ok E = false ->
     remote s2 = remote s).
Proof.
  intros Hp Hd.
  destruct (process_all_spec E pending s) as (gen' & failed' & s1' & Hp' & _ & C1 & R1 & _).
  rewrite Hp in Hp'. injection Hp' as _ _ <-.
  destruct (dispatch_spec _ _ _ _ _ _ Hd) as (_ & Hnil & Hrem & _).
  split_and!.
  - exact R1.
  - intros Hg. rewrite <- R1. by apply Hnil.
  - rewrite <- R1. exact Hrem.
  - intros Hdry Hne Hst Hc Hpu Hdiff.
    destruct (dispatch_remote _ _ _ _ _ _ Hne Hd) as (rg & s3 & Hg & ->).
    apply (git_commit_remote _ _ _ _ Hg); try done. by rewrite C1.
  - intros Hf. rewrite <- R1.
    destruct (decide (gen = [])) as [->|Hne]; [by apply Hnil|].
    destruct (dispatch_remote _ _ _ _ _ _ Hne Hd) as (rg & s3 & Hg & ->).
    by apply (git_commit_remote _ _ _ _ Hg).
Qed.

Lemma publish_only_after_loop_witness :
  let loop := loop_run env_broken [r_broken; r_beta] in
  let disp := dispatch env_broken (gen_of loop.1) (failed_of loop.1) loop.2 in
  loop = (Ok (gen_of loop.1, failed_of loop.1), loop.2) /\
  disp = (disp.1, disp.2) /\
  remote loop.2 = remote (st0 [r_broken; r_beta]) /\
  (gen_of loop.1 = [] -> remote disp.2 = remote (st0 [r_broken; r_beta])) /\
  (remote disp.2 = remote (st0 [r_broken; r_beta]) \/ remote disp.2 = packs_tree (fs loop.2)) /\
  (dry_run env_broken = false -> gen_of loop.1 <> [] -> stage_ok env_broken = true ->
     commit_ok env_broken = true -> push_ok env_broken = true ->
     packs_tree (fs loop.2) <> committed (st0 [r_broken; r_beta]) ->
     remote disp.2 = packs_tree (fs loop.2)) /\
  (dry_run env_broken = true \/ stage_ok env_broken = false \/ commit_ok env_broken = false \/
     push_ok env_broken = false -> remote disp.2 = remote (st0 [r_broken; r_beta])).
Proof.
  cbn zeta.
  split; [vm_compute; reflexivity|]. split; [exact (surjective_pairing _)|].
  apply (publish_only_after_loop env_broken (List.filter is_pending [r_broken; r_beta])
           (st0 [r_broken; r_beta]) _
           (failed_of (loop_run env_broken [r_broken; r_beta]).1) _
           (dispatch env_broken (gen_of (loop_run env_broken [r_broken; r_beta]).1)
              (failed_of (loop_run env_broken [r_broken; r_beta]).1)
              (loop_run env_broken [r_broken; r_beta]).2).1);
    [vm_compute; reflexivity|exact (surjective_pairing _)].
Defined.

(** C3: the record of CERT-003 fails in pikepdf, the record of CERT-002
    succeeds; the run pushes the partial PDF of CERT-003 (a PDF with no
    archive beside it) and records the failure of CERT-003. *)
Lemma partial_pack_published_counterexample :
  let run := main env_broken (st0 [r_broken; r_beta]) in
  run.1 = Ok tt /\
  remote run.2 !! pdf_path "CERT-003" = Some (get (remote run.2) (pdf_path "CERT-003")) /\
  remote run.2 !! zip_path "CERT-003" = None /\
  remote run.2 !! zip_path "CERT-002" = Some (get (remote run.2) (zip_path "CERT-002")) /\
  updates_for "rec3" (events run.2) =
    [EvUpdate "rec3" (failure_payload (VStr "PdfError") (isoformat (clock_demo 8)))].
Proof. vm_compute. split_and!; reflexivity. Qed.

(** C1: a first run publishes the complete pack of CERT-001 and then fails on
    the status update, so the record stays selected; the second run selects it
    again, succeeds, and replaces the published PDF with different bytes. *)
Lemma rerun_overwrites_pack_counterexample :
  let run1 := main env_http_fail (st0 [r_acme]) in
  let run2 := main demo_env run1.2 in
  run1.1 = Exn "HTTPError" /\
  remote run1.2 !! pdf_path "CERT-001" = Some (get (remote run1.2) (pdf_path "CERT-001")) /\
  remote run1.2 !! contents_path "CERT-001" = Some (get (remote run1.2) (contents_path "CERT-001")) /\
  remote run1.2 !! zip_path "CERT-001" = Some (get (remote run1.2) (zip_path "CERT-001")) /\
  remote run1.2 !! master_path "CERT-001" = Some (get (remote run1.2) (master_path "CERT-001")) /\
  map rec_id (List.filter is_pending (table run1.2)) = ["rec1"] /\
  run2.1 = Ok tt /\
  remote run2.2 !! pdf_path "CERT-001" <> remote run1.2 !! pdf_path "CERT-001" /\
  fs run2.2 !! pdf_path "CERT-001" <> fs run1.2 !! pdf_path "CERT-001".
Proof. vm_compute. split_and!; try reflexivity; discriminate. Qed.

End Claims.


(** * Further properties of the script *)

Module Extras.
Import Names Steps Demo.

(** A run without the Airtable credentials, a dry run, and a run whose
    [git commit] fails. *)
Definition env_unconfigured : env :=
  mk_env false false render_demo pdfa_demo zip_demo sha_demo clock_demo true true true (fun _ => true).

Definition env_dry : env :=
  mk_env true true render_demo pdfa_demo zip_demo sha_demo clock_demo true true true (fun _ => true).

Definition env_commit_fail : env :=
  mk_env true false render_demo pdfa_demo zip_demo sha_demo clock_demo true false true (fun _ => true).

(** A run whose [git add packs/] fails. *)
Definition env_stage_fail : env :=
  mk_env true false render_demo pdfa_demo zip_demo sha_demo clock_demo false true true (fun _ => true).

(** A record whose [Issue_Now] box is not ticked. *)
Definition r_paused : airtable_record :=
  mk_record "rec7" (fields_of [("Certification_ID", VStr "CERT-007"); ("Entity_Name", VStr "Paused Inc");
                               ("Status", VStr "Active"); ("Issue_Now", VBool false)]).

(** A working tree holding one pack file, committed but never pushed. *)
Definition fs_one : gmap path string := {[ pdf_path "CERT-001" := "PDF" ]}.

Definition st_unpushed : state := mk_state fs_one fs_one ∅ [] 0 [].

(** A working tree holding one pack file that is not committed yet. *)
Definition st_staged : state := mk_state fs_one ∅ ∅ [] 0 [].

(** ** Dry runs *)

Lemma update_generated_dry E gen b s :
  dry_run E = true -> update_generated E gen b s = (Ok tt, s).
Proof.
  intros Hd. revert s. induction gen as [|item gen IH]; intros s; [done|].
  cbn [update_generated]. unfold bind at 1, update_airtable_record. rewrite Hd. apply IH.
Qed.

Lemma update_failed_dry E failed s :
  dry_run E = true -> update_failed E failed s = (Ok tt, s).
Proof.
  intros Hd. revert s. induction failed as [|item failed IH]; intros s; [done|].
  cbn [update_failed]. unfold bind at 1, update_airtable_record. rewrite Hd. apply IH.
Qed.

Lemma dispatch_dry E gen failed s :
  dry_run E = true -> dispatch E gen failed s = (Ok tt, s).
Proof.
  intros Hd. unfold dispatch.
  destruct (decide (gen = [])); unfold bind at 1; [by apply update_failed_dry|].
  unfold bind at 1, git_commit_packs. rewrite Hd. unfold ret at 1.
  rewrite (update_generated_dry _ _ _ _ Hd). by apply update_failed_dry.
Qed.

(** ** Runs of [main] that touch nothing *)

(** [main] changes nothing when the credentials are missing (it exits with
    [sys.exit(1)]) or when no record is selected (it returns). *)
Theorem main_noop E s r s' :
  (configured E = false \/ List.filter is_pending (table s) = []) ->
  main E s = (r, s') ->
  s' = s /\ (configured E = false -> r = Exn "SystemExit") /\ (configured E = true -> r = Ok tt).
Proof.
  intros Hc. unfold main. destruct (configured E) eqn:Hce; cbn [negb].
  - destruct Hc as [Hc|Hnil]; [done|].
    unfold bind at 1, get_pending_certifications, gets. cbv beta iota.
    rewrite decide_True by exact Hnil. unfold ret. intros [= <- <-]. done.
  - unfold raise. intros [= <- <-]. done.
Qed.

Lemma main_noop_witness :
  (main env_unconfigured (st0 [r_acme])).2 = st0 [r_acme] /\
  (main env_unconfigured (st0 [r_acme])).1 = Exn "SystemExit" /\
  (main demo_env (st0 [r_paused])).2 = st0 [r_paused] /\
  (main demo_env (st0 [r_paused])).1 = Ok tt.
Proof.
  destruct (main_noop env_unconfigured (st0 [r_acme]) _ _ (or_introl eq_refl) (surjective_pairing _))
    as (H1 & H2 & _).
  destruct (main_noop demo_env (st0 [r_paused]) _ _ (or_intror (eq_refl [])) (surjective_pairing _))
    as (H3 & _ & H4).
  split_and!; [exact H1|exact (H2 eq_refl)|exact H3|exact (H4 eq_refl)].
Defined.

(** ** Dry runs publish nothing *)

(** With [DRY_RUN] set, [main] never commits, never pushes and never writes
    to Airtable: the only events are the archives it builds. *)
Theorem main_dry_run_publishes_nothing E s r s' :
  dry_run E = true -> main E s = (r, s') ->
  committed s' = committed s /\ remote s' = remote s /\ table s' = table s /\
  (exists l, events s' = events s ++ l /\ Forall is_pack_zip l).
Proof.
  intros Hd. unfold main. destruct (configured E); cbn [negb].
  2:{ unfold raise. intros [= <- <-]. split_and!; try done. exists []. by rewrite app_nil_r. }
  unfold bind at 1, get_pending_certifications, gets. cbv beta iota.
  destruct (decide (List.filter is_pending (table s) = [])) as [Hnil|Hne].
  { unfold ret. intros [= <- <-]. split_and!; try done. exists []. by rewrite app_nil_r. }
  unfold bind at 1.
  destruct (process_all_spec E (List.filter is_pending (table s)) s)
    as (gen & failed & s1 & Hp & _ & C1 & R1 & T1 & Ev1 & _).
  rewrite Hp, (dispatch_dry _ _ _ _ Hd). intros [= <- <-]. by split_and!.
Qed.

Lemma main_dry_run_publishes_nothing_witness :
  let run := main env_dry (st0 [r_acme; r_beta]) in
  remote run.2 = ∅ /\ table run.2 = [r_acme; r_beta].
Proof.
  cbv zeta.
  destruct (main_dry_run_publishes_nothing env_dry (st0 [r_acme; r_beta])
              (main env_dry (st0 [r_acme; r_beta])).1 (main env_dry (st0 [r_acme; r_beta])).2 eq_refl
              (surjective_pairing _)) as (_ & H1 & H2 & _).
  split; [exact H1|exact H2].
Defined.

(** ** [git_commit_packs] *)

(** When the staged [packs/] tree equals the last commit, [git_commit_packs]
    commits nothing and pushes nothing, even if that commit was never pushed:
    it reports success, unless [git config] or [git add packs/] fails, in
    which case it reports failure. *)
Theorem git_commit_nothing_staged E s :
  dry_run E = false -> packs_tree (fs s) = committed s ->
  git_commit_packs E s = (Ok (stage_ok E), s).
Proof.
  intros Hd Hs. unfold git_commit_packs. rewrite Hd.
  destruct (stage_ok E); cbn [negb]; [|done].
  unfold_monad. by rewrite decide_True by exact Hs.
Qed.

Lemma packs_tree_fs_one : packs_tree fs_one = fs_one.
Proof. unfold packs_tree, fs_one. by rewrite map_filter_singleton_True. Qed.

Lemma git_commit_nothing_staged_witness :
  git_commit_packs demo_env st_unpushed = (Ok true, st_unpushed) /\
  remote st_unpushed !! pdf_path "CERT-001" = None /\
  committed st_unpushed !! pdf_path "CERT-001" = Some "PDF".
Proof.
  split_and!.
  - apply git_commit_nothing_staged; [reflexivity|exact packs_tree_fs_one].
  - reflexivity.
  - unfold st_unpushed, fs_one. cbn [committed]. apply lookup_singleton_eq.
Defined.

(** When the staged [packs/] tree differs from the last commit,
    [git_commit_packs] ends in one of four ways: [git config] or [git add]
    fails and nothing changes; or it reads the clock once and then commit and
    push succeed, and both the local and the remote history hold the staged
    tree; the commit fails and nothing else changes; or the commit succeeds,
    the push fails, and the new commit stays local. Only the second returns
    [True]. Files, the table and the event trace are untouched. *)
Theorem git_commit_outcomes E s r s' :
  dry_run E = false -> packs_tree (fs s) <> committed s ->
  git_commit_packs E s = (r, s') ->
  fs s' = fs s /\ table s' = table s /\ events s' = events s /\
  ((stage_ok E = false /\ r = Ok false /\ s' = s) \/
   (stage_ok E = true /\ ticks s' = S (ticks s) /\
    ((commit_ok E = true /\ push_ok E = true /\ r = Ok true /\
        committed s' = packs_tree (fs s) /\ remote s' = packs_tree (fs s)) \/
     (commit_ok E = false /\ r = Ok false /\ committed s' = committed s /\ remote s' = remote s) \/
     (commit_ok E = true /\ push_ok E = false /\ r = Ok false /\
        committed s' = packs_tree (fs s) /\ remote s' = remote s)))).
Proof.
  intros Hd Hs. unfold git_commit_packs. rewrite Hd.
  destruct (stage_ok E); cbn [negb];
    [|unfold ret; intros [= <- <-]; split_and!; try done; by left].
  unfold_monad. rewrite decide_False by exact Hs.
  destruct (commit_ok E); [destruct (push_ok E)|]; intros [= <- <-]; cbn;
    split_and!; try done; right; split_and!; try done.
  - left. done.
  - right; right. done.
  - right; left. done.
Qed.

Lemma git_commit_outcomes_witness :
  (git_commit_packs demo_env st_staged).1 = Ok true /\
  remote (git_commit_packs demo_env st_staged).2 = fs_one /\
  (git_commit_packs env_stage_fail st_staged).1 = Ok false /\
  (git_commit_packs env_stage_fail st_staged).2 = st_staged /\
  (git_commit_packs env_commit_fail st_staged).1 = Ok false /\
  committed (git_commit_packs env_commit_fail st_staged).2 = ∅ /\
  (git_commit_packs env_push_fail st_staged).1 = Ok false /\
  committed (git_commit_packs env_push_fail st_staged).2 = fs_one /\
  remote (git_commit_packs env_push_fail st_staged).2 = ∅.
Proof.
  assert (Hp : packs_tree (fs st_staged) = fs_one) by exact packs_tree_fs_one.
  assert (Hs : packs_tree (fs st_staged) <> committed st_staged)
    by (rewrite Hp; apply singleton_non_empty).
  destruct (git_commit_outcomes demo_env st_staged (git_commit_packs demo_env st_staged).1
              (git_commit_packs demo_env st_staged).2 eq_refl Hs (surjective_pairing _))
    as (_ & _ & _ & [(Hc & _)|(_ & _ & [(_ & _ & A1 & _ & A2)|[(Hc & _)|(_ & Hc & _)]])]);
    [discriminate| |discriminate|discriminate].
  destruct (git_commit_outcomes env_stage_fail st_staged (git_commit_packs env_stage_fail st_staged).1
              (git_commit_packs env_stage_fail st_staged).2 eq_refl Hs (surjective_pairing _))
    as (_ & _ & _ & [(_ & D1 & D2)|(Hc & _)]); [|discriminate].
  destruct (git_commit_outcomes env_commit_fail st_staged (git_commit_packs env_commit_fail st_staged).1
              (git_commit_packs env_commit_fail st_staged).2 eq_refl Hs (surjective_pairing _))
    as (_ & _ & _ & [(Hc & _)|(_ & _ & [(Hc & _)|[(_ & B1 & B2 & _)|(Hc & _)]])]);
    [discriminate|discriminate| |discriminate].
  destruct (git_commit_outcomes env_push_fail st_staged (git_commit_packs env_push_fail st_staged).1
              (git_commit_packs env_push_fail st_staged).2 eq_refl Hs (surjective_pairing _))
    as (_ & _ & _ & [(Hc & _)|(_ & _ & [(_ & Hc & _)|[(Hc & _)|(_ & _ & C1 & C2 & C3)]])]);
    [discriminate|discriminate|discriminate|].
  rewrite Hp in A2, C2. split_and!; assumption.
Defined.

(** ** What one status update writes *)

Lemma apply_payload_notin payload f k :
  k ∉ map fst payload -> apply_payload payload f !! k = f !! k.
Proof.
  unfold apply_payload. revert f.
  induction payload as [|[k' v'] payload IH]; intros f Hk; [done|].
  cbn in Hk |- *. apply not_elem_of_cons in Hk as [Hne Hk].
  rewrite IH by exact Hk. by apply lookup_insert_ne.
Qed.

Lemma apply_payload_in payload f k v :
  NoDup (map fst payload) -> (k, v) ∈ payload -> apply_payload payload f !! k = Some v.
Proof.
  unfold apply_payload. revert f.
  induction payload as [|[k' v'] payload IH]; intros f Hnd Hin; [inversion Hin|].
  cbn in Hnd |- *. apply NoDup_cons in Hnd as [Hk Hnd].
  apply elem_of_cons in Hin as [[= <- <-]|Hin].
  - fold (apply_payload payload (<[k:=v]> f)). rewrite apply_payload_notin by exact Hk.
    apply lookup_insert_eq.
  - by apply IH.
Qed.

(** The fields [update_airtable_record] writes on success. *)
Definition success_keys : list string :=
  ["Issuance_Pack_Generated"; "Issuance_Pack_URL"; "Issuance_Pack_SHA256";
   "Issuance_Pack_ZIP_URL"; "Issuance_Pack_ZIP_SHA256"; "Issuance_Dispatch_Status";
   "Issuance_Dispatch_At"; "Issue_Now"].

(** The fields it writes on failure. *)
Definition failure_keys : list string :=
  ["Issuance_Dispatch_Status"; "Issuance_Error_Log"; "Issuance_Dispatch_At"].

Ltac in_payload := repeat (first [apply list_elem_of_here | apply list_elem_of_further]).

Lemma success_fields c p z at_ f :
  let f' := apply_payload (success_payload c p z at_) f in
  f' !! "Issuance_Pack_Generated" = Some (VBool true) /\
  f' !! "Issuance_Pack_URL" =
    Some (VStr (GITHUB_PAGES_BASE +:+ "/packs/" +:+ py_str c +:+ "/" +:+ py_str c +:+ "_issuance_pack.pdf")) /\
  f' !! "Issuance_Pack_SHA256" = Some p /\
  f' !! "Issuance_Pack_ZIP_URL" =
    Some (VStr (GITHUB_PAGES_BASE +:+ "/packs/" +:+ py_str c +:+ "/" +:+ py_str c +:+ "_issuance_pack.zip")) /\
  f' !! "Issuance_Pack_ZIP_SHA256" = Some z /\
  f' !! "Issuance_Dispatch_Status" = Some (VStr "Sent") /\
  f' !! "Issuance_Dispatch_At" = Some (VStr at_) /\
  f' !! "Issue_Now" = Some (VBool false) /\
  (forall k, k ∉ success_keys -> f' !! k = f !! k).
Proof.
  cbv zeta.
  assert (Hnd : NoDup (map fst (success_payload c p z at_)))
    by (refine (bool_decide_unpack _ _); vm_compute; reflexivity).
  split_and!; try (apply apply_payload_in; [exact Hnd|unfold success_payload; in_payload]).
  intros k Hk. by apply apply_payload_notin.
Qed.

Lemma failure_fields em at_ f :
  let f' := apply_payload (failure_payload em at_) f in
  f' !! "Issuance_Dispatch_Status" = Some (VStr "Failed") /\
  f' !! "Issuance_Error_Log" = Some (py_or em "Unknown error") /\
  f' !! "Issuance_Dispatch_At" = Some (VStr at_) /\
  (forall k, k ∉ failure_keys -> f' !! k = f !! k).
Proof.
  cbv zeta.
  assert (Hnd : NoDup (map fst (failure_payload em at_)))
    by (refine (bool_decide_unpack _ _); vm_compute; reflexivity).
  split_and!; try (apply apply_payload_in; [exact Hnd|unfold failure_payload; in_payload]).
  intros k Hk. by apply apply_payload_notin.
Qed.

Lemma update_airtable_live_ok E id c p z b em s s' :
  dry_run E = false -> update_airtable_record E id c p z b em s = (Ok tt, s') ->
  table s' = update_fields id (update_payload c p z b em (isoformat (clock E (ticks s)))) (table s).
Proof.
  intros Hd. unfold update_airtable_record, update_payload. rewrite Hd.
  unfold bind at 1, now.
  assert (Hu : forall r, table_update E id (if b then success_payload c p z (isoformat (clock E (ticks s)))
                 else failure_payload em (isoformat (clock E (ticks s)))) (tick s) = (r, s') ->
                 r = Ok tt -> table s' = update_fields id (if b then success_payload c p z
                   (isoformat (clock E (ticks s))) else failure_payload em (isoformat (clock E (ticks s)))) (table s)).
  { intros r. unfold table_update. unfold_monad.
    destruct (update_ok E id && _); intros [= <- <-]; [done|discriminate]. }
  intros H. apply (Hu (Ok tt)); [|done]. by destruct b.
Qed.

Lemma update_fields_rel id payload t :
  Forall2 (fun r r' => rec_id r' = rec_id r /\ (rec_id r <> id -> r' = r) /\
             (rec_id r = id -> rec_fields r' = apply_payload payload (rec_fields r)))
    t (update_fields id payload t).
Proof.
  induction t as [|r t IH]; constructor; [|exact IH].
  destruct (decide (rec_id r = id)); split_and!; done.
Qed.

(** A successful live update of [record_id] writes the eight success fields
    into that record: [Issue_Now] unticked, [Issuance_Pack_Generated] ticked,
    the pack URLs built from the certification id, the two digests, status
    [Sent] and the current time. Every other field of that record, and every
    other record, is left as it was. *)
Theorem success_update_writes E id c p z em s s' :
  dry_run E = false -> update_airtable_record E id c p z true em s = (Ok tt, s') ->
  Forall2 (fun r r' => rec_id r' = rec_id r /\ (rec_id r <> id -> r' = r) /\
    (rec_id r = id ->
       rec_fields r' !! "Issuance_Pack_Generated" = Some (VBool true) /\
       rec_fields r' !! "Issuance_Pack_URL" = Some (VStr (GITHUB_PAGES_BASE +:+ "/packs/" +:+ py_str c
                                              +:+ "/" +:+ py_str c +:+ "_issuance_pack.pdf")) /\
       rec_fields r' !! "Issuance_Pack_SHA256" = Some p /\
       rec_fields r' !! "Issuance_Pack_ZIP_URL" = Some (VStr (GITHUB_PAGES_BASE +:+ "/packs/" +:+ py_str c
                                              +:+ "/" +:+ py_str c +:+ "_issuance_pack.zip")) /\
       rec_fields r' !! "Issuance_Pack_ZIP_SHA256" = Some z /\
       rec_fields r' !! "Issuance_Dispatch_Status" = Some (VStr "Sent") /\
       rec_fields r' !! "Issuance_Dispatch_At" = Some (VStr (isoformat (clock E (ticks s)))) /\
       rec_fields r' !! "Issue_Now" = Some (VBool false) /\
       (forall k, k ∉ success_keys -> rec_fields r' !! k = rec_fields r !! k)))
    (table s) (table s').
Proof.
  intros Hd H. rewrite (update_airtable_live_ok _ _ _ _ _ _ _ _ _ Hd H).
  eapply Forall2_impl; [apply update_fields_rel|].
  intros r r' (Hid & Hne & Heq). split_and!; [done|done|].
  intros Hr. rewrite (Heq Hr). apply success_fields.
Qed.

Definition upd_acme : exc unit * state :=
  update_airtable_record demo_env "rec1" (VStr "CERT-001") (VStr "p") (VStr "z") true VNone
    (st0 [r_acme; r_beta]).

Lemma success_update_writes_witness :
  upd_acme.1 = Ok tt /\
  exists r', table upd_acme.2 !! 0 = Some r' /\ rec_fields r' !! "Issue_Now" = Some (VBool false).
Proof.
  assert (Hok : upd_acme.1 = Ok tt) by (vm_compute; reflexivity).
  split; [exact Hok|].
  assert (H : update_airtable_record demo_env "rec1" (VStr "CERT-001") (VStr "p") (VStr "z") true VNone
                (st0 [r_acme; r_beta]) = (Ok tt, upd_acme.2))
    by (rewrite <- Hok; apply surjective_pairing).
  pose proof (success_update_writes demo_env _ _ _ _ _ _ _ eq_refl H) as HF.
  destruct (Forall2_lookup_l _ _ _ 0 r_acme HF eq_refl) as (r' & Hr' & _ & _ & Hs).
  exists r'. split; [exact Hr'|]. apply Hs. reflexivity.
Defined.

(** A successful live failure update of [record_id] sets the status to
    [Failed], the error log to [error_msg], or to [Unknown error] when
    [error_msg] is empty or [None], and the time. No other field changes, so
    the record is selected again by the next run exactly when it was
    selected before. *)
Theorem failure_update_writes E id c p z em s s' :
  dry_run E = false -> update_airtable_record E id c p z false em s = (Ok tt, s') ->
  Forall2 (fun r r' => rec_id r' = rec_id r /\ (rec_id r <> id -> r' = r) /\
    is_pending r' = is_pending r /\
    (rec_id r = id ->
       rec_fields r' !! "Issuance_Dispatch_Status" = Some (VStr "Failed") /\
       rec_fields r' !! "Issuance_Error_Log" = Some (py_or em "Unknown error") /\
       rec_fields r' !! "Issuance_Dispatch_At" = Some (VStr (isoformat (clock E (ticks s)))) /\
       (forall k, k ∉ failure_keys -> rec_fields r' !! k = rec_fields r !! k)))
    (table s) (table s').
Proof.
  intros Hd H. rewrite (update_airtable_live_ok _ _ _ _ _ _ _ _ _ Hd H).
  eapply Forall2_impl; [apply update_fields_rel|].
  intros r r' (Hid & Hne & Heq). split_and!; [done|done| |].
  - destruct (decide (rec_id r = id)) as [Hr|Hr]; [|by rewrite (Hne Hr)].
    destruct r as [i f], r' as [i' f']. cbn in *. subst i'.
    rewrite (Heq Hr). apply is_pending_failure.
  - intros Hr. rewrite (Heq Hr). apply failure_fields.
Qed.

Definition upd_fail : exc unit * state :=
  update_airtable_record demo_env "rec1" (VStr "CERT-001") VNone VNone false (VStr "")
    (st0 [r_acme; r_beta]).

Lemma failure_update_writes_witness :
  upd_fail.1 = Ok tt /\
  exists r', table upd_fail.2 !! 0 = Some r' /\ is_pending r' = true /\
    rec_fields r' !! "Issuance_Error_Log" = Some (VStr "Unknown error").
Proof.
  assert (Hok : upd_fail.1 = Ok tt) by (vm_compute; reflexivity).
  split; [exact Hok|].
  assert (H : update_airtable_record demo_env "rec1" (VStr "CERT-001") VNone VNone false (VStr "")
                (st0 [r_acme; r_beta]) = (Ok tt, upd_fail.2))
    by (rewrite <- Hok; apply surjective_pairing).
  pose proof (failure_update_writes demo_env _ _ _ _ _ _ _ eq_refl H) as HF.
  destruct (Forall2_lookup_l _ _ _ 0 r_acme HF eq_refl) as (r' & Hr' & _ & _ & Hp & Hs).
  exists r'. split_and!; [exact Hr'|rewrite Hp; vm_compute; reflexivity|].
  destruct (Hs eq_refl) as (_ & H2 & _). exact H2.
Defined.

(** ** Failed entries are selected again by the next run *)

(** Some record with this id satisfies the selection predicate. *)
Definition pending_at (id : string) (t : list airtable_record) : Prop :=
  exists r, r ∈ t /\ rec_id r = id /\ is_pending r = true.

Lemma pending_at_update id id' c p z b em at_ t :
  (b = false \/ id' <> id) -> pending_at id t ->
  pending_at id (update_fields id' (update_payload c p z b em at_) t).
Proof.
  intros Hb (r & Hr & Hid & Hp). unfold update_fields.
  destruct (decide (rec_id r = id')) as [He|He].
  - destruct Hb as [->|Hne]; [|congruence].
    exists (mk_record (rec_id r) (apply_payload (update_payload c p z false em at_) (rec_fields r))).
    split_and!.
    + apply list_elem_of_fmap. exists r. split; [|exact Hr]. by rewrite decide_True.
    + exact Hid.
    + unfold update_payload. rewrite is_pending_failure. by destruct r.
  - exists r. split_and!; [|done|done].
    apply list_elem_of_fmap. exists r. split; [|exact Hr]. by rewrite decide_False.
Qed.

Lemma update_airtable_pending E id id' c p z b em s r s' :
  (b = false \/ id' <> id) -> pending_at id (table s) ->
  update_airtable_record E id' c p z b em s = (r, s') -> pending_at id (table s').
Proof.
  intros Hb Hp H. apply update_airtable_spec in H as (_ & _ & _ & Hdry & Hlive).
  destruct (dry_run E).
  - by destruct (Hdry eq_refl) as [_ ->].
  - destruct (Hlive eq_refl) as (at_ & _ & [[_ ->]|[_ ->]]); [|done].
    by apply pending_at_update.
Qed.

Lemma update_generated_pending E gen b id s r s' :
  (b = false \/ id ∉ map g_record_id gen) -> pending_at id (table s) ->
  update_generated E gen b s = (r, s') -> pending_at id (table s').
Proof.
  revert s. induction gen as [|item gen IH]; intros s Hb Hp; cbn [update_generated].
  { unfold ret. by intros [= <- <-]. }
  unfold bind at 1.
  destruct (update_airtable_record _ _ _ _ _ _ _ s) as [r1 s1] eqn:Hu.
  assert (Hb1 : b = false \/ g_record_id item <> id).
  { destruct Hb as [->|Hn]; [by left|right]. intros <-. apply Hn. cbn. apply list_elem_of_here. }
  assert (Hp1 : pending_at id (table s1)) by exact (update_airtable_pending _ _ _ _ _ _ _ _ _ _ _ Hb1 Hp Hu).
  destruct r1 as [[]|e]; [|by intros [= <- <-]].
  apply IH; [|exact Hp1].
  destruct Hb as [->|Hn]; [by left|right]. intros Hi. apply Hn. cbn. by apply list_elem_of_further.
Qed.

Lemma update_failed_pending E failed id s r s' :
  pending_at id (table s) -> update_failed E failed s = (r, s') -> pending_at id (table s').
Proof.
  revert s. induction failed as [|item failed IH]; intros s Hp; cbn [update_failed].
  { unfold ret. by intros [= <- <-]. }
  unfold bind at 1.
  destruct (update_airtable_record _ _ _ _ _ _ _ s) as [r1 s1] eqn:Hu.
  assert (Hp1 : pending_at id (table s1))
    by exact (update_airtable_pending _ _ _ _ _ _ _ _ _ _ _ (or_introl eq_refl) Hp Hu).
  destruct r1 as [[]|e]; [|by intros [= <- <-]].
  by apply IH.
Qed.

Lemma dispatch_pending E gen failed id s r s' :
  id ∉ map g_record_id gen -> pending_at id (table s) ->
  dispatch E gen failed s = (r, s') -> pending_at id (table s').
Proof.
  intros Hn Hp. unfold dispatch. destruct (decide (gen = [])).
  - unfold bind at 1, ret. by apply update_failed_pending.
  - unfold bind at 1 2.
    destruct (git_commit_packs E s) as [r1 s1] eqn:Hg.
    pose proof (git_commit_spec _ _ _ _ Hg) as (_ & Tg & _ & [b ->] & _).
    destruct (update_generated E gen b s1) as [r2 s2] eqn:Hu.
    assert (Hp2 : pending_at id (table s2))
      by (eapply update_generated_pending; [by right|rewrite Tg; exact Hp|exact Hu]).
    destruct r2 as [[]|e]; [|by intros [= <- <-]].
    by apply update_failed_pending.
Qed.

Lemma failed_ids_pending E pending s gen failed s1 item :
  NoDup (map rec_id pending) ->
  process_all E pending s = (Ok (gen, failed), s1) ->
  map g_record_id gen ++ map f_record_id failed ≡ₚ map rec_id pending ->
  item ∈ failed ->
  (f_record_id item ∉ map g_record_id gen) /\ (exists r, r ∈ pending /\ rec_id r = f_record_id item).
Proof.
  intros Hnd _ Hperm Hi.
  assert (Hin : f_record_id item ∈ map f_record_id failed) by (apply list_elem_of_fmap; eauto).
  split.
  - rewrite <- Hperm in Hnd. apply NoDup_app in Hnd as (_ & Hdis & _).
    intros Hg. exact (Hdis _ Hg Hin).
  - assert (Hin' : f_record_id item ∈ map rec_id pending)
      by (rewrite <- Hperm; apply elem_of_app; by right).
    apply list_elem_of_fmap in Hin' as (r & Hr & Hrin). eauto.
Qed.

(** With unique record ids, every entry that failed in the loop of [main] is
    still selected in the table when [main] ends, whatever the outcome of the
    run (a dry run, a failed commit, a rejected status update): the failure
    update never unticks [Issue_Now] nor ticks [Issuance_Pack_Generated], so
    the next run retries the entry. *)
Theorem failed_entries_stay_selected E s r s' :
  NoDup (map rec_id (table s)) -> main E s = (r, s') ->
  exists gen failed s1,
    process_all E (List.filter is_pending (table s)) s = (Ok (gen, failed), s1) /\
    forall item, item ∈ failed -> pending_at (f_record_id item) (table s').
Proof.
  intros Hnd Hm.
  pose proof (NoDup_map_filter rec_id is_pending _ Hnd) as Hnd'.
  destruct (process_all_spec E (List.filter is_pending (table s)) s)
    as (gen & failed & s1 & Hp & Hperm & _ & _ & T1 & _ & _).
  exists gen, failed, s1. split; [exact Hp|]. intros item Hi.
  destruct (failed_ids_pending _ _ _ _ _ _ _ Hnd' Hp Hperm Hi) as (Hng & r0 & Hr0 & Hid).
  assert (Hpend : pending_at (f_record_id item) (table s)).
  { apply list_elem_of_In, filter_In in Hr0 as [Hr0 Hr0p].
    exists r0. split_and!; [by apply list_elem_of_In|exact Hid|exact Hr0p]. }
  revert Hm. unfold main. destruct (configured E); cbn [negb].
  2:{ unfold raise. by intros [= <- <-]. }
  unfold bind at 1, get_pending_certifications, gets. cbv beta iota.
  destruct (decide (List.filter is_pending (table s) = [])).
  { unfold ret. by intros [= <- <-]. }
  unfold bind at 1. rewrite Hp. intros Hd.
  eapply dispatch_pending; [exact Hng|rewrite T1; exact Hpend|exact Hd].
Qed.

Lemma failed_entries_stay_selected_witness :
  let run := main env_broken (st0 [r_acme; r_broken]) in
  exists gen failed s1,
    process_all env_broken (List.filter is_pending [r_acme; r_broken]) (st0 [r_acme; r_broken])
      = (Ok (gen, failed), s1) /\
    forall item, item ∈ failed -> pending_at (f_record_id item) (table run.2).
Proof.
  cbv zeta.
  apply (failed_entries_stay_selected env_broken (st0 [r_acme; r_broken])
           (main env_broken (st0 [r_acme; r_broken])).1 (main env_broken (st0 [r_acme; r_broken])).2).
  - refine (bool_decide_unpack _ _). vm_compute. reflexivity.
  - apply surjective_pairing.
Defined.

(** ** [generate_pdf] and its temporary file *)

(** [generate_pdf] only writes the output PDF and its temporary
    [.pdfa.pdf] sibling. On success the temporary file is gone and the
    output holds the PDF/A bytes whose SHA-256 is returned; when the
    conversion fails the raw ReportLab PDF stays at the output path; on any
    failure the temporary file is as before. *)
Theorem generate_pdf_outcomes E cert cid s r s' :
  generate_pdf E cert (pdf_path cid) s = (r, s') ->
  committed s' = committed s /\ remote s' = remote s /\ table s' = table s /\ events s' = events s /\
  (forall p, p <> pdf_path cid -> p <> pdfa_path cid -> fs s' !! p = fs s !! p) /\
  match r with
  | Ok h =>
      fs s' !! pdfa_path cid = None /\
      exists pdf out,
        render E (pdf_story (rec_fields cert) (strftime_utc (clock E (ticks s)))) (S (ticks s)) = Some pdf /\
        pdfa_save E pdf (pdf_metadata (rec_fields cert) (isoformat (clock E (S (ticks s))))) (S (S (ticks s))) = Some out /\
        fs s' !! pdf_path cid = Some out /\ h = sha256 E out
  | Exn e =>
      fs s' !! pdfa_path cid = fs s !! pdfa_path cid /\
      (e = "PdfError" ->
         exists pdf, render E (pdf_story (rec_fields cert) (strftime_utc (clock E (ticks s)))) (S (ticks s)) = Some pdf /\
           fs s' !! pdf_path cid = Some pdf)
  end.
Proof.
  rewrite generate_pdf_eq.
  pose proof (pdfa_ne_pdf_path cid) as Hne.
  destruct (render E _ _) as [pdf|] eqn:Hr.
  2:{ intros [= <- <-]. cbn. split_and!; done. }
  cbv zeta. destruct (pdfa_save E pdf _ _) as [out|] eqn:Hp; intros [= <- <-]; cbn.
  - split_and!; try done.
    + intros p H1 H2. rewrite lookup_insert_ne by congruence.
      rewrite lookup_delete_ne by congruence. by apply lookup_insert_ne.
    + rewrite lookup_insert_ne by congruence. apply lookup_delete_eq.
    + exists pdf, out. split_and!; try done. apply lookup_insert_eq.
  - split_and!; try done.
    + intros p H1 _. by apply lookup_insert_ne.
    + by apply lookup_insert_ne.
    + intros _. exists pdf. split; [done|apply lookup_insert_eq].
Qed.

Definition pdf_broken_run : exc string * state :=
  generate_pdf env_broken r_broken (pdf_path "CERT-003") (st0 []).

Lemma generate_pdf_outcomes_witness :
  pdf_broken_run.1 = Exn "PdfError" /\
  exists pdf, fs pdf_broken_run.2 !! pdf_path "CERT-003" = Some pdf.
Proof.
  assert (Hr : pdf_broken_run.1 = Exn "PdfError") by (vm_compute; reflexivity).
  split; [exact Hr|].
  destruct (generate_pdf_outcomes env_broken r_broken "CERT-003" (st0 []) pdf_broken_run.1
              pdf_broken_run.2 (surjective_pairing _)) as (_ & _ & _ & _ & _ & Hm).
  rewrite Hr in Hm. destruct Hm as [_ Hm].
  destruct (Hm eq_refl) as (pdf & _ & Hpdf). eauto.
Defined.

(** ** The URLs of the master manifest and of the Airtable record *)

(** The pack and archive URLs that a successful update writes to Airtable
    for a certification id are exactly the two [URL:] lines of the master
    manifest written for that id. *)
Theorem manifest_urls_match_airtable cid ps psz zs zsz ts p z at_ u :
  (("Issuance_Pack_URL", VStr u) ∈ success_payload (VStr cid) p z at_ \/
   ("Issuance_Pack_ZIP_URL", VStr u) ∈ success_payload (VStr cid) p z at_) ->
  ("   URL: " +:+ u) ∈ master_manifest_lines cid ps psz zs zsz ts.
Proof.
  unfold success_payload, master_manifest_lines. cbv zeta. cbn [py_str].
  rewrite !app_assoc_str.
  intros [Hu|Hu]; apply elem_of_cons in Hu as [[=]|Hu].
  - apply elem_of_cons in Hu as [[= <-]|Hu].
    + do 11 apply list_elem_of_further. apply list_elem_of_here.
    + repeat (apply elem_of_cons in Hu as [[=]|Hu]). inversion Hu.
  - apply elem_of_cons in Hu as [[=]|Hu]. apply elem_of_cons in Hu as [[=]|Hu].
    apply elem_of_cons in Hu as [[= <-]|Hu].
    + do 16 apply list_elem_of_further. apply list_elem_of_here.
    + repeat (apply elem_of_cons in Hu as [[=]|Hu]). inversion Hu.
Qed.

Lemma manifest_urls_match_airtable_witness :
  ("   URL: " +:+ (GITHUB_PAGES_BASE +:+ "/packs/" +:+ "CERT-001" +:+ "/" +:+ "CERT-001"
                   +:+ "_issuance_pack.zip"))
    ∈ master_manifest_lines "CERT-001" "sha-p" 10 "sha-z" 20 "2026-01-15 12:00:00 UTC".
Proof.
  apply (manifest_urls_match_airtable "CERT-001" "sha-p" 10 "sha-z" 20 "2026-01-15 12:00:00 UTC"
           (VStr "sha-p") (VStr "sha-z") "2026-01-15T12:00:00+00:00").
  right. unfold success_payload. cbn [py_str]. do 3 apply list_elem_of_further. apply list_elem_of_here.
Defined.

(** ** The loop of [main] keeps the table order *)

Lemma process_entry_ids E cert s g s' :
  process_entry E cert s = (Ok g, s') -> g_record_id g = rec_id cert /\ g_cert_id g = cert_id_of cert.
Proof.
  intros H. destruct (process_entry_ok _ _ _ _ _ H) as (cid & pdf & out & z & Hc & _ & _ & _ & -> & _).
  by rewrite Hc.
Qed.

(** The loop of [main] never fails as a whole, and both the [generated] and
    the [failed] list carry the record id and the Certification_ID of their
    record, in the order of the selected records. *)
Theorem process_all_order E pending s r s' :
  process_all E pending s = (r, s') ->
  exists gen failed, r = Ok (gen, failed) /\
    map (fun g => (g_record_id g, g_cert_id g)) gen `sublist_of` map (fun c => (rec_id c, cert_id_of c)) pending /\
    map (fun f => (f_record_id f, f_cert_id f)) failed `sublist_of` map (fun c => (rec_id c, cert_id_of c)) pending.
Proof.
  revert s r s'. induction pending as [|c pending IH]; intros s r s'; cbn [process_all].
  { unfold ret. intros [= <- <-]. exists [], []. split_and!; [done|constructor|constructor]. }
  unfold bind at 1. rewrite try_entry_eq.
  destruct (process_entry E c s) as [r1 s1] eqn:Hp. cbv beta iota.
  unfold bind at 1.
  destruct (process_all E pending s1) as [r2 s2] eqn:Hrest.
  destruct (IH _ _ _ Hrest) as (gen & failed & -> & Hg & Hf).
  unfold ret. intros [= <- <-]. cbn [map].
  destruct r1 as [g|e].
  - destruct (process_entry_ids _ _ _ _ _ Hp) as [Hi Hc].
    exists (g :: gen), failed. cbn [map]. rewrite Hi, Hc.
    split_and!; [done|by apply sublist_skip|by apply sublist_cons].
  - exists gen, (mk_fail (rec_id c) (cert_id_of c) e :: failed). cbn [map f_record_id f_cert_id].
    split_and!; [done|by apply sublist_cons|by apply sublist_skip].
Qed.

Definition loop_broken : exc (list gen_item * list fail_item) * state :=
  process_all env_broken [r_acme; r_broken; r_beta] (st0 [r_acme; r_broken; r_beta]).

Lemma process_all_order_witness :
  exists gen failed, loop_broken.1 = Ok (gen, failed) /\
    map (fun f => (f_record_id f, f_cert_id f)) failed `sublist_of`
      [("rec1", VStr "CERT-001"); ("rec3", VStr "CERT-003"); ("rec2", VStr "CERT-002")].
Proof.
  destruct (process_all_order env_broken [r_acme; r_broken; r_beta] (st0 [r_acme; r_broken; r_beta])
              loop_broken.1 loop_broken.2 (surjective_pairing _)) as (gen & failed & H & _ & Hf).
  exists gen, failed. split; [exact H|exact Hf].
Defined.

(** A record whose Certification_ID is not a string.  *)
Definition r_bool_id : airtable_record :=
  mk_record "rec8" (fields_of [("Certification_ID", VBool true); ("Entity_Name", VStr "Epsilon");
                               ("Status", VStr "Active"); ("Issue_Now", VBool true)]).

(** An entry whose Certification_ID is not a string fails at once
    ([PACKS_DIR / cert_id] raises): it is reported as failed with that
    Certification_ID, and nothing is written or read. *)
Theorem non_string_cert_id_fails E cert s :
  (forall cid, cert_id_of cert <> VStr cid) ->
  exists e, try_entry E cert s = (Ok (inr (mk_fail (rec_id cert) (cert_id_of cert) e)), s).
Proof.
  intros Hc. rewrite try_entry_eq, process_entry_eq. unfold process_entry_closed.
  destruct (cert_id_of cert) as [cid| |] eqn:He; [by destruct (Hc cid)| |]; eexists; reflexivity.
Qed.

Lemma non_string_cert_id_fails_witness :
  exists e, try_entry demo_env r_bool_id (st0 [r_bool_id]) =
            (Ok (inr (mk_fail "rec8" (VBool true) e)), st0 [r_bool_id]).
Proof.
  apply (non_string_cert_id_fails demo_env r_bool_id (st0 [r_bool_id])).
  intros cid. vm_compute. discriminate.
Defined.

(** ** Git is only run when some pack was generated *)

(** When no selected entry produced a pack (all failed, or none selected),
    [main] neither commits nor pushes: the local and the remote history are
    unchanged, although the failed entries may have left files in [packs/]. *)
Theorem no_pack_no_git E s r s' :
  main E s = (r, s') ->
  exists gen failed s1,
    process_all E (List.filter is_pending (table s)) s = (Ok (gen, failed), s1) /\
    (gen = [] -> committed s' = committed s /\ remote s' = remote s).
Proof.
  intros Hm.
  destruct (process_all_spec E (List.filter is_pending (table s)) s)
    as (gen & failed & s1 & Hp & _ & C1 & R1 & _ & _ & _).
  exists gen, failed, s1. split; [exact Hp|]. intros Hg.
  revert Hm. unfold main. destruct (configured E); cbn [negb].
  2:{ unfold raise. by intros [= <- <-]. }
  unfold bind at 1, get_pending_certifications, gets. cbv beta iota.
  destruct (decide (List.filter is_pending (table s) = [])).
  { unfold ret. by intros [= <- <-]. }
  unfold bind at 1. rewrite Hp. intros Hd.
  destruct (dispatch_spec _ _ _ _ _ _ Hd) as (_ & Hnil & _).
  destruct (Hnil Hg) as [-> ->]. by split.
Qed.

Lemma no_pack_no_git_witness :
  let run := main env_broken (st0 [r_broken]) in
  exists gen failed s1,
    process_all env_broken (List.filter is_pending [r_broken]) (st0 [r_broken]) = (Ok (gen, failed), s1) /\
    (gen = [] -> committed run.2 = ∅ /\ remote run.2 = ∅).
Proof.
  cbv zeta.
  exact (no_pack_no_git env_broken (st0 [r_broken])
           (main env_broken (st0 [r_broken])).1 (main env_broken (st0 [r_broken])).2
           (surjective_pairing _)).
Defined.

End Extras.
